(** * ui5-builder: markup dependency analyzer and bundle resolver

    A shallow embedding of [lib/lbt/analyzer/XMLTemplateAnalyzer.js] and of
    [ResolvedBundleDefinition] (bundle resolution), with the JavaScript
    object store made explicit:

    - arrays of module names and [ModuleInfo] objects live in a [Heap] and
      are addressed by locations, so that in-place updates ([sort],
      [addDependency], [addSubModule]) and aliasing are visible;
    - a promise returned by the resource pool is a [Response]: an outcome
      together with the time at which it settles.  Callbacks registered with
      [then] never run synchronously; they run when their promise settles,
      earlier settlements first, and in registration order among promises
      that settle at the same time ([settle_order]).

    What is assumed of the collaborators: every lookup of the pool settles;
    the parser calls back exactly once, with an error, with the root node,
    or with [null] for a document without a root element; the module
    naming function is total.  Strings are sequences of
    code units below 256, compared unit by unit as [sort()] does.  The
    [ModuleInfo] class and [ModuleName.fromUI5LegacyName] are separate
    modules of the library; the first is modelled from its specification,
    the second is a parameter of the analyzer. *)

From Stdlib Require Import Ascii.
From stdpp Require Import base option list strings sorting gmap.

Set Warnings "-register-all".

(** ** JavaScript values shared by both components *)

(** [new Error(message)] *)
Inductive JsError := Error (message : string).

(** A settled promise. *)
Inductive Settled (A : Type) :=
  | Fulfilled (value : A)
  | Rejected (reason : JsError).
Arguments Fulfilled {A} value.
Arguments Rejected {A} reason.

(** What an asynchronous pool method answers: the promise it returns settles
    after [delay] turns of the event loop with [outcome]. *)
Record Response (A : Type) := mkResponse {
  delay : nat;
  outcome : Settled A
}.
Arguments mkResponse {A} delay outcome.
Arguments delay {A} r.
Arguments outcome {A} r.

(** Objects are addressed by their position in the store. *)
Abbreviation loc := nat.

(** *** Order in which a batch of promises runs its callbacks *)

(** [enqueue x l] puts a promise that was registered before all of [l] and
    settles at time [x.1] at its place in the callback order of [l]. *)
Fixpoint enqueue {A} (x : nat * A) (l : list (nat * A)) : list (nat * A) :=
  match l with
  | [] => [x]
  | y :: l' => if decide (x.1 ≤ y.1) then x :: y :: l' else y :: enqueue x l'
  end.

(** The batch in registration order, each promise with the time it settles;
    the result is the order in which the callbacks run. *)
Definition settle_order {A} (batch : list (nat * A)) : list A :=
  (foldr enqueue [] batch).*2.

(** ** ModuleInfo *)

Module ModuleInfo.

(** Modelled from the spec: the class of [lib/lbt/resources/ModuleInfo.js],
    which both components only use.  A Module Info has a name, an
    insertion-ordered set of direct dependencies each with its conditional
    flag, a set of implicit dependencies, the raw-module flag and the
    ordered list of nested submodule infos. *)
Inductive t := mk {
  name : string;
  dependencies : list (string * bool);
  implicitDependencies : list string;
  rawModule : bool;
  subModules : list t
}.

(** Modelled from the spec: a Module Info is created empty. *)
Definition create (n : string) : t := mk n [] [] false [].

(** Modelled from the spec: the insertion rule of the dependency map.  The
    first write sets the flag, a later unconditional write clears it, a
    later conditional write never sets it again. *)
Fixpoint record (dependency : string) (conditional : bool)
    (deps : list (string * bool)) : list (string * bool) :=
  match deps with
  | [] => [(dependency, conditional)]
  | (d, c) :: rest =>
      if decide (d = dependency) then (d, c && conditional) :: rest
      else (d, c) :: record dependency conditional rest
  end.

(** Modelled from the spec: [addDependency(dependency, conditional)];
    self-references are silently dropped, adding twice is idempotent. *)
Definition addDependency (dependency : string) (conditional : bool)
    (info : t) : t :=
  if decide (dependency = name info) then info
  else mk (name info) (record dependency conditional (dependencies info))
          (implicitDependencies info) (rawModule info) (subModules info).

(** Modelled from the spec: [addImplicitDependency(dependency)]; the
    implicit dependencies form a set and never contain the module itself. *)
Definition addImplicitDependency (dependency : string) (info : t) : t :=
  if decide (dependency = name info) then info
  else if decide (dependency ∈ implicitDependencies info) then info
  else mk (name info) (dependencies info)
          (implicitDependencies info ++ [dependency])
          (rawModule info) (subModules info).

(** Modelled from the spec: [addSubModule(subinfo)] appends to the ordered
    list of submodule infos. *)
Definition addSubModule (subinfo : t) (info : t) : t :=
  mk (name info) (dependencies info) (implicitDependencies info)
     (rawModule info) (subModules info ++ [subinfo]).

(** [info.rawModule = true] *)
Definition setRawModule (info : t) : t :=
  mk (name info) (dependencies info) (implicitDependencies info)
     true (subModules info).

(** The conditional flag recorded for a dependency, if it is recorded. *)
Fixpoint flagOf (dependency : string) (deps : list (string * bool))
    : option bool :=
  match deps with
  | [] => None
  | (d, c) :: rest =>
      if decide (d = dependency) then Some c else flagOf dependency rest
  end.

Definition isConditionalDependency (dependency : string) (info : t)
    : option bool :=
  flagOf dependency (dependencies info).

End ModuleInfo.

(** ** The object store *)

Record Heap := mkHeap {
  arrays : list (list string);
  infos : list ModuleInfo.t
}.

(** The contents of the array at [r]. *)
Definition array_get (h : Heap) (r : loc) : list string :=
  default [] (arrays h !! r).

(** [Array.prototype.slice()]: a new array with the same elements. *)
Definition slice (r : loc) (h : Heap) : loc * Heap :=
  (length (arrays h), mkHeap (arrays h ++ [array_get h r]) (infos h)).

(** [Array.prototype.sort()] without comparator: sorts the array at [r] in
    place, ascending in the order of the strings' code units. *)
Definition sort (r : loc) (h : Heap) : Heap :=
  mkHeap (alter (merge_sort String.le) r (arrays h)) (infos h).

(** [new ModuleInfo()] followed by the assignment of its name. *)
Definition new_ModuleInfo (n : string) (h : Heap) : loc * Heap :=
  (length (infos h), mkHeap (arrays h) (infos h ++ [ModuleInfo.create n])).

(** A method call that updates the Module Info object at [l] in place. *)
Definition update_info (l : loc) (f : ModuleInfo.t → ModuleInfo.t)
    (h : Heap) : Heap :=
  mkHeap (arrays h) (alter f l (infos h)).

(** ** The resource pool (external collaborator) *)

(** The two asynchronous lookups.  The first argument is the number of
    events the caller has seen so far: the same name may be answered
    differently, and after a different time, at different moments. *)
Record ResourcePool := mkPool {
  findResource : nat → string → Response unit;
  getModuleInfo : nat → string → Response ModuleInfo.t
}.

(** ** ResolvedBundleDefinition *)

(** [SectionType] of [BundleDefinition.js]: the mode of a section.  The
    source writes [SectionType.Require]; the name is reserved here. *)
Inductive SectionType := Provided | Require_ | Raw | Preload.

#[global] Instance SectionType_eq_dec : EqDecision SectionType.
Proof. solve_decision. Defined.

(** What a run of the resolver does to the pool and to the bundle info, in
    the order in which it happens. *)
Inductive Event :=
  | Requested (submodule : string)  (* [pool.getModuleInfo(submodule)] *)
  | Attached (submodule : string)   (* its promise fulfilled, callback ran *)
  | Failed (submodule : string).    (* its promise rejected *)

Module ResolvedBundleDefinition.

(** [mode] is read from the section definition; [modules] is the array of
    module names that the resolver stores on the resolved section. *)
Record ResolvedSection := mkSection {
  mode : SectionType;
  modules : loc
}.

Record t := mk {
  name : string;
  sections : list ResolvedSection
}.

(** The store and the trace of a resolution. *)
Record Run := mkRun {
  heap : Heap;
  log : list Event
}.

Section Queries.
(** The two names of [UI5ClientConstants]. *)
Variables MODULE__SAP_UI_CORE_CORE MODULE__JQUERY_SAP_GLOBAL : string.

Definition containsCore (h : Heap) (this : t) : bool :=
  existsb (λ section,
      (bool_decide (mode section = Raw)
         || bool_decide (mode section = Require_))
      && existsb (λ module, bool_decide (module = MODULE__SAP_UI_CORE_CORE))
           (array_get h (modules section)))
    (sections this).

Definition containsGlobal (h : Heap) (this : t) : bool :=
  existsb (λ section,
      bool_decide (mode section = Raw)
      && existsb (λ module, bool_decide (module = MODULE__JQUERY_SAP_GLOBAL))
           (array_get h (modules section)))
    (sections this).
End Queries.

Definition executes (h : Heap) (this : t) (moduleName : string) : bool :=
  existsb (λ section,
      (bool_decide (mode section = Raw)
         || bool_decide (mode section = Require_))
      && existsb (λ module, bool_decide (module = moduleName))
           (array_get h (modules section)))
    (sections this).

(** [modules.map(submodule => pool.getModuleInfo(submodule).then(..))]:
    the lookups are issued one after the other, in the order of the
    array; each is paired with the time at which it settles. *)
Fixpoint request (pool : ResourcePool) (names : list string)
    (log : list Event)
    : list (nat * (string * Settled ModuleInfo.t)) * list Event :=
  match names with
  | [] => ([], log)
  | submodule :: rest =>
      let r := getModuleInfo pool (length log) submodule in
      let '(batch, log') := request pool rest (log ++ [Requested submodule]) in
      ((delay r, (submodule, outcome r)) :: batch, log')
  end.

(** One promise of the batch settles.  Fulfilled: the callback
    [(subinfo) => bundleInfo.addSubModule(subinfo)] runs.  Rejected:
    [Promise.all] rejects with the first rejection and ignores later ones. *)
Definition settle (bundleInfo : loc) (st : Run * option JsError)
    (p : string * Settled ModuleInfo.t) : Run * option JsError :=
  match p.2 with
  | Fulfilled subinfo =>
      (mkRun (update_info bundleInfo (ModuleInfo.addSubModule subinfo)
                (heap st.1))
             (log st.1 ++ [Attached p.1]),
       st.2)
  | Rejected e =>
      (mkRun (heap st.1) (log st.1 ++ [Failed p.1]),
       Some (default e st.2))
  end.

(** The body of the [then] callback that [createModuleInfo] chains for one
    section. *)
Definition section_step (pool : ResourcePool) (bundleInfo : loc)
    (section : ResolvedSection) (run : Run) : Settled unit * Run :=
  if decide (mode section = Provided) then (Fulfilled (), run)
  else if decide (mode section = Require_) then
    (Fulfilled (),
     mkRun (foldl (λ h module,
                     update_info bundleInfo
                       (ModuleInfo.addDependency module false) h)
              (heap run) (array_get (heap run) (modules section)))
           (log run))
  else
    let h1 :=
      if bool_decide (mode section = Raw)
         && negb (length (array_get (heap run) (modules section)) =? 0)
      then update_info bundleInfo ModuleInfo.setRawModule (heap run)
      else heap run in
    let '(modules, h2) :=
      if decide (mode section = Preload) then
        let '(copy, h') := slice (modules section) h1 in
        (copy, sort copy h')
      else (modules section, h1) in
    let '(batch, log1) := request pool (array_get h2 modules) (log run) in
    let '(run', failure) :=
      foldl (settle bundleInfo) (mkRun h2 log1, None) (settle_order batch) in
    (match failure with Some e => Rejected e | None => Fulfilled () end,
     run').

(** The promise chain built by [this.sections.forEach]: the callback of a
    section runs when the promise of the section before it is fulfilled,
    and is skipped when that promise is rejected. *)
Fixpoint chain (pool : ResourcePool) (bundleInfo : loc)
    (sections : list ResolvedSection) (run : Run) : Settled unit * Run :=
  match sections with
  | [] => (Fulfilled (), run)
  | section :: rest =>
      match section_step pool bundleInfo section run with
      | (Fulfilled _, run') => chain pool bundleInfo rest run'
      | (Rejected e, run') => (Rejected e, run')
      end
  end.

Definition createModuleInfo (pool : ResourcePool) (this : t) (run : Run)
    : Settled loc * Run :=
  let '(bundleInfo, h) := new_ModuleInfo (name this) (heap run) in
  match chain pool bundleInfo (sections this) (mkRun h (log run)) with
  | (Fulfilled _, run') => (Fulfilled bundleInfo, run')
  | (Rejected e, run') => (Rejected e, run')
  end.

End ResolvedBundleDefinition.

(** ** XMLTemplateAnalyzer *)

Module XMLTemplateAnalyzer.

Definition XHTML_NAMESPACE := "http://www.w3.org/1999/xhtml".
Definition SVG_NAMESPACE := "http://www.w3.org/2000/svg".
Definition TEMPLATING_NAMESPACE :=
  "http://schemas.sap.com/sapui5/extension/sap.ui.core.template/1".

(** [/^(?:if|repeat)$/.test(localName)] *)
Definition TEMPLATING_CONDITONAL_TAGS (localName : string) : bool :=
  bool_decide (localName = "if") || bool_decide (localName = "repeat").

(** The two character classes of [PATTERN_LIBRARY_NAMESPACES]:
    [[a-zA-Z_$]] and [[a-zA-z0-9_$]] (the second range is written [A-z]
    in the source and so runs from code 65 to code 122). *)
Definition ident_start (c : ascii) : bool :=
  let n := nat_of_ascii c in
  (97 <=? n) && (n <=? 122) || (65 <=? n) && (n <=? 90)
  || (n =? 95) || (n =? 36).

Definition ident_part (c : ascii) : bool :=
  let n := nat_of_ascii c in
  (97 <=? n) && (n <=? 122) || (65 <=? n) && (n <=? 122)
  || (48 <=? n) && (n <=? 57) || (n =? 95) || (n =? 36).

(** The automaton of the pattern: [fresh] holds at the start of the input
    and just after a dot, where an identifier has to begin. *)
Fixpoint dotted (fresh : bool) (s : string) : bool :=
  match s with
  | EmptyString => negb fresh
  | String c s' =>
      if fresh then ident_start c && dotted false s'
      else if bool_decide (c = "."%char) then dotted true s'
      else ident_part c && dotted false s'
  end.

(** [PATTERN_LIBRARY_NAMESPACES.test(namespace)]: the whole input is one
    or more identifiers separated by single dots. *)
Definition PATTERN_LIBRARY_NAMESPACES (namespace : string) : bool :=
  dotted true namespace.

Definition COMPONENTCONTAINER_MODULE := "sap/ui/core/ComponentContainer.js".
Definition COMPONENTCONTAINER_COMPONENTNAME_ATTRIBUTE := "name".
Definition FRAGMENTDEFINITION_MODULE := "sap/ui/core/FragmentDefinition.js".
Definition FRAGMENT_MODULE := "sap/ui/core/Fragment.js".
Definition FRAGMENT_FRAGMENTNAME_ATTRIBUTE := "fragmentName".
Definition FRAGMENT_TYPE_ATTRIBUTE := "type".
Definition HTMLVIEW_MODULE := "sap/ui/core/mvc/HTMLView.js".
Definition JSVIEW_MODULE := "sap/ui/core/mvc/JSView.js".
Definition JSONVIEW_MODULE := "sap/ui/core/mvc/JSONView.js".
Definition XMLVIEW_MODULE := "sap/ui/core/mvc/XMLView.js".
Definition ANYVIEW_VIEWNAME_ATTRIBUTE := "viewName".
Definition XMLVIEW_CONTROLLERNAME_ATTRIBUTE := "controllerName".
Definition XMLVIEW_RESBUNDLENAME_ATTRIBUTE := "resourceBundleName".

(** A node as the parser delivers it: [$ns.uri], [$ns.local], the
    attribute object [$] (name to value) and the ordered children [$$]. *)
Inductive Node := mkNode {
  ns_uri : option string;
  ns_local : string;
  attrs : gmap string string;
  children : list Node
}.

(** Induction on a tree of nodes, with the hypothesis for every child. *)
Fixpoint Node_forall (P : Node → Prop)
    (step : ∀ uri local attributes kids,
              Forall P kids → P (mkNode uri local attributes kids))
    (n : Node) : P n :=
  match n with
  | mkNode uri local attributes kids =>
      step uri local attributes kids
        ((fix all (l : list Node) : Forall P l :=
            match l with
            | [] => @List.Forall_nil Node P
            | c :: l' =>
                @List.Forall_cons Node P c l' (Node_forall P step c) (all l')
            end) kids)
  end.

(** An absent attribute and an attribute with an empty value both give
    [null]. *)
Definition getAttribute (node : Node) (attr : string) : option string :=
  match attrs node !! attr with
  | Some value => if decide (value = "") then None else Some value
  | None => None
  end.

(** [String.prototype.toLowerCase] on one code unit below 256: the
    capital letters [A] to [Z] and those of the codes 192 to 222, without
    the multiplication sign 215, have their small letter 32 further on. *)
Definition lower (c : ascii) : ascii :=
  let n := nat_of_ascii c in
  if (65 <=? n) && (n <=? 90)
     || (192 <=? n) && (n <=? 222) && negb (n =? 215)
  then ascii_of_nat (n + 32) else c.

Fixpoint toLowerCase (s : string) : string :=
  match s with
  | EmptyString => EmptyString
  | String c s' => String (lower c) (toLowerCase s')
  end.

Definition _getFragmentExtension (type : string) : string :=
  ".fragment." +:+ toLowerCase type.

(** An element of [this.promises]: the promise made by
    [this._pool.findResource(moduleName).then(..)].  It keeps what its
    callbacks close over and the pool's answer. *)
Record Pending := mkPending {
  moduleName : string;
  node : Node;
  response : Response unit
}.

(** The mutable fields of an analyzer instance.  [info] is a reference to
    the caller's Module Info; the constructor sets [busy] only. *)
Record t := mk {
  busy : bool;
  info : option loc;
  conditional : bool;
  promises : list Pending
}.

(** [new XMLTemplateAnalyzer(pool)] *)
Definition create : t := mk false None false [].

(** What a call of [_analyze] has done when it returns. *)
Inductive Started :=
  | Thrown (e : JsError)        (* an exception; no promise is returned *)
  | ParseFailed (e : JsError)   (* the promise returned is rejected *)
  | ExecutorThrew (e : JsError) (* an exception in the callback of the
                                   parser: the promise is rejected with it *)
  | Traversed.                  (* the promise waits for [this.promises] *)

Inductive Completion :=
  | Threw (e : JsError)
  | Returned (promise : Settled loc).

Section Collaborators.
Variable pool : ResourcePool.
(** [this._parser.parseString]: calls back once, with an error or with
    the result, which is the root node, or [null] when the document has
    no root element. *)
Variable parseString : string → JsError + option Node.
(** [ModuleName.fromUI5LegacyName(name, suffix)]; the suffix is optional. *)
Variable fromUI5LegacyName : string → option string → string.

Definition _addDependency (moduleName : string) (this : t) (h : Heap)
    : Heap :=
  match info this with
  | Some l =>
      match infos h !! l with
      | Some i =>
          if decide (ModuleInfo.name i = moduleName) then h
          else update_info l
                 (ModuleInfo.addDependency moduleName (conditional this)) h
      | None => h
      end
  | None => h
  end.

Fixpoint _analyzeNode (node : Node) (this : t) : t :=
  let namespace := default "" (ns_uri node) in
  let localName := ns_local node in
  let oldConditional := conditional this in
  let this1 :=
    if decide (namespace = TEMPLATING_NAMESPACE) then
      if TEMPLATING_CONDITONAL_TAGS localName
      then mk (busy this) (info this) true (promises this)
      else this
    else if bool_decide (namespace = XHTML_NAMESPACE)
            || bool_decide (namespace = SVG_NAMESPACE) then this
    else if PATTERN_LIBRARY_NAMESPACES namespace then
      let moduleName :=
        fromUI5LegacyName
          ((if decide (namespace = "") then "" else namespace +:+ ".")
             +:+ localName) None in
      if decide (FRAGMENTDEFINITION_MODULE ≠ moduleName) then
        mk (busy this) (info this) (conditional this)
           (promises this ++
              [mkPending moduleName node
                 (findResource pool (length (promises this)) moduleName)])
      else this
    else this in
  let this2 :=
    foldl (λ acc child, _analyzeNode child acc) this1 (children node) in
  mk (busy this2) (info this2) oldConditional (promises this2).

Definition _analyzeChildren (node : Node) (this : t) : t :=
  foldl (λ acc child, _analyzeNode child acc) this (children node).

Definition addImplicitDependency (dependency : string) (this : t)
    (h : Heap) : Heap :=
  match info this with
  | Some l => update_info l (ModuleInfo.addImplicitDependency dependency) h
  | None => h
  end.

Definition _analyzeViewRootNode (node : Node) (this : t) (h : Heap)
    : t * Heap :=
  let h := addImplicitDependency XMLVIEW_MODULE this h in
  let h :=
    match getAttribute node XMLVIEW_CONTROLLERNAME_ATTRIBUTE with
    | Some controllerName =>
        _addDependency
          (fromUI5LegacyName controllerName (Some ".controller.js")) this h
    | None => h
    end in
  let h :=
    match getAttribute node XMLVIEW_RESBUNDLENAME_ATTRIBUTE with
    | Some resourceBundleName =>
        _addDependency
          (fromUI5LegacyName resourceBundleName (Some ".properties")) this h
    | None => h
    end in
  (_analyzeChildren node this, h).

(** The fulfilment callback of a lookup.  It runs when the promise of
    [findResource] is fulfilled and reads the instance fields then. *)
Definition found (p : Pending) (this : t) (h : Heap) : Heap :=
  let moduleName := moduleName p in
  let node := node p in
  let h := _addDependency moduleName this h in
  let viewName ext :=
    match getAttribute node ANYVIEW_VIEWNAME_ATTRIBUTE with
    | Some viewName =>
        _addDependency (fromUI5LegacyName viewName (Some ext)) this h
    | None => h
    end in
  if decide (moduleName = COMPONENTCONTAINER_MODULE) then
    match getAttribute node COMPONENTCONTAINER_COMPONENTNAME_ATTRIBUTE with
    | Some componentName =>
        _addDependency
          (fromUI5LegacyName componentName (Some "/Component.js")) this h
    | None => h
    end
  else if decide (moduleName = FRAGMENT_MODULE) then
    match getAttribute node FRAGMENT_FRAGMENTNAME_ATTRIBUTE,
          getAttribute node FRAGMENT_TYPE_ATTRIBUTE with
    | Some fragmentName, Some type =>
        _addDependency
          (fromUI5LegacyName fragmentName
             (Some (_getFragmentExtension type))) this h
    | _, _ => h
    end
  else if decide (moduleName = HTMLVIEW_MODULE) then viewName ".view.html"
  else if decide (moduleName = JSVIEW_MODULE) then viewName ".view.js"
  else if decide (moduleName = JSONVIEW_MODULE) then viewName ".view.json"
  else if decide (moduleName = XMLVIEW_MODULE) then viewName ".view.xml"
  else h.

(** One element of [this.promises] settles: the fulfilment callback
    records dependencies, the rejection callback does nothing. *)
Definition settle (this : t) (h : Heap) (p : Pending) : Heap :=
  match outcome (response p) with
  | Fulfilled _ => found p this h
  | Rejected _ => h
  end.

(** All of [this.promises] settle, in the order of their times. *)
Definition settle_all (this : t) (h : Heap) : Heap :=
  foldl (settle this) h
    (settle_order ((λ p, (delay (response p), p)) <$> promises this)).

(** The synchronous part of [_analyze]: everything up to the call of
    [Promise.all].  With [null] for a result the implicit dependency is
    added and the first access of the node ([node.$ns] for a fragment,
    [node.$] in [getAttribute] for a view) raises a [TypeError]: the
    executor of the promise is left by the exception and nothing resets
    [busy]. *)
Definition start (xml : string) (info : loc) (isFragment : bool)
    (this : t) (h : Heap) : Started * t * Heap :=
  if busy this then (Thrown (Error "analyzer is busy"), this, h)
  else
    let this := mk true (Some info) false [] in
    match parseString xml with
    | inl err => (ParseFailed err, mk false (Some info) false [], h)
    | inr None =>
        if isFragment then
          let h := addImplicitDependency FRAGMENT_MODULE this h in
          (ExecutorThrew (Error "Cannot read property '$ns' of null"),
           this, h)
        else
          let h := addImplicitDependency XMLVIEW_MODULE this h in
          (ExecutorThrew (Error "Cannot read property '$' of null"),
           this, h)
    | inr (Some result) =>
        if isFragment then
          let h := addImplicitDependency FRAGMENT_MODULE this h in
          (Traversed, _analyzeNode result this, h)
        else
          let '(this, h) := _analyzeViewRootNode result this h in
          (Traversed, this, h)
    end.

(** [Promise.all(this.promises).then(..)]: once every lookup has
    settled the instance is released and the promise is resolved with
    the caller's Module Info. *)
Definition finish (info : loc) (this : t) (h : Heap)
    : Completion * t * Heap :=
  (Returned (Fulfilled info),
   mk false (XMLTemplateAnalyzer.info this) (conditional this)
      (promises this),
   settle_all this h).

Definition _analyze (xml : string) (info : loc) (isFragment : bool)
    (this : t) (h : Heap) : Completion * t * Heap :=
  match start xml info isFragment this h with
  | (Thrown e, this', h') => (Threw e, this', h')
  | (ParseFailed e, this', h') => (Returned (Rejected e), this', h')
  | (ExecutorThrew e, this', h') => (Returned (Rejected e), this', h')
  | (Traversed, this', h') => finish info this' h'
  end.

Definition analyzeView (xml : string) (info : loc) :=
  _analyze xml info false.

Definition analyzeFragment (xml : string) (info : loc) :=
  _analyze xml info true.

End Collaborators.

End XMLTemplateAnalyzer.

(** ** ModuleName *)

Module ModuleName.

Fixpoint slashes (s : string) : string :=
  match s with
  | EmptyString => EmptyString
  | String c s' =>
      String (if bool_decide (c = "."%char) then "/"%char else c) (slashes s')
  end.

(** Modelled from the spec: the module naming function of
    [lib/lbt/utils/ModuleName.js], a pure function from a dotted name and
    an optional extension to a resource path.  The dots become slashes
    and the extension, [.js] when none is given, is appended. *)
Definition fromUI5LegacyName (name : string) (suffix : option string)
    : string :=
  slashes name +:+ default ".js" suffix.

End ModuleName.

(** ** Concrete inputs used to run the definitions *)

Module Sample.
Import XMLTemplateAnalyzer.

(** A pool that knows every module and answers at once. *)
Definition prompt_pool : ResourcePool :=
  mkPool (λ _ _, mkResponse 0 (Fulfilled ()))
         (λ _ m, mkResponse 0 (Fulfilled (ModuleInfo.create m))).

(** A pool that knows no module. *)
Definition empty_pool : ResourcePool :=
  mkPool (λ _ m, mkResponse 0 (Rejected (Error m)))
         (λ _ m, mkResponse 0 (Rejected (Error m))).

(** A pool with a cold cache: the Module Info asked for first has to be
    computed, which takes one turn of the event loop, and every later one
    is at hand. *)
Definition cold_pool : ResourcePool :=
  mkPool (λ _ _, mkResponse 0 (Fulfilled ()))
         (λ k m, mkResponse (if k =? 0 then 1 else 0)
                   (Fulfilled (ModuleInfo.create m))).

(** A pool without [missing.js]. *)
Definition partial_pool : ResourcePool :=
  mkPool (λ _ _, mkResponse 0 (Fulfilled ()))
         (λ _ m, mkResponse 0
                   (if bool_decide (m = "missing.js")
                    then Rejected (Error "resource not found: missing.js")
                    else Fulfilled (ModuleInfo.create m))).

Definition element (uri local : string) (kids : list Node) : Node :=
  mkNode (Some uri) local ∅ kids.

Definition button : Node := element "sap.m" "Button" [].

(** [<core:FragmentDefinition><template:if><m:Button/></template:if>
    </core:FragmentDefinition>] *)
Definition conditional_button : Node :=
  element "sap.ui.core" "FragmentDefinition"
    [element TEMPLATING_NAMESPACE "if" [button]].

(** The same with a second button next to the [template:if]. *)
Definition both_buttons : Node :=
  element "sap.ui.core" "FragmentDefinition"
    [element TEMPLATING_NAMESPACE "if" [button]; button].

(** [<m:Page><m:content><m:Button/></m:content></m:Page>]: [content] is an
    aggregation, not a control. *)
Definition page : Node :=
  element "sap.m" "Page" [element "sap.m" "content" [button]].

Definition page_pool : ResourcePool :=
  mkPool (λ _ m, mkResponse 0
                   (if bool_decide (m = "sap/m/content.js")
                    then Rejected (Error "not found") else Fulfilled ()))
         (λ _ m, mkResponse 0 (Fulfilled (ModuleInfo.create m))).

(** A parser for the inputs above; the empty document has no root
    element and everything else is malformed. *)
Definition parseString (xml : string) : JsError + option Node :=
  if decide (xml = "conditional_button") then inr (Some conditional_button)
  else if decide (xml = "both_buttons") then inr (Some both_buttons)
  else if decide (xml = "page") then inr (Some page)
  else if decide (xml = "") then inr None
  else inl (Error "Unclosed root tag").

(** A store with one Module Info, of the fragment under analysis. *)
Definition fragment_heap : Heap :=
  mkHeap [] [ModuleInfo.create "my/app/Main.fragment.xml"].

(** A store with the module lists of three sections. *)
Definition bundle_heap : Heap :=
  mkHeap [["b.js"; "a.js"]; ["x.js"; "y.js"]; ["a.js"; "b.js"]; [];
          ["y.js"; "missing.js"]] [].

Import ResolvedBundleDefinition.

Definition preload_bundle : ResolvedBundleDefinition.t :=
  ResolvedBundleDefinition.mk "bundle.js" [mkSection Preload 0].

Definition raw_bundle : ResolvedBundleDefinition.t :=
  ResolvedBundleDefinition.mk "bundle.js" [mkSection Raw 1].

Definition mixed_bundle : ResolvedBundleDefinition.t :=
  ResolvedBundleDefinition.mk "bundle.js"
    [mkSection Provided 0; mkSection Require_ 1; mkSection Raw 3;
     mkSection Preload 0].

Definition broken_bundle : ResolvedBundleDefinition.t :=
  ResolvedBundleDefinition.mk "bundle.js"
    [mkSection Require_ 1; mkSection Preload 4; mkSection Raw 1].

Definition fresh_run : Run := mkRun bundle_heap [].

End Sample.

(** ** Notions used to state the properties *)

(** [h'] comes from [h] by allocating arrays and by method calls on the
    Module Info at [l]: no existing array and no other Module Info has
    changed. *)
Definition frame (l : loc) (h h' : Heap) : Prop :=
  arrays h `prefix_of` arrays h' ∧ ∃ g, infos h' = alter g l (infos h).

(** A pool that settles its lookups in the order in which they were
    requested. *)
Definition fifo (pool : ResourcePool) : Prop :=
  ∀ k k' m m', k ≤ k' →
    delay (getModuleInfo pool k m) ≤ delay (getModuleInfo pool k' m').

(** The names of the submodules of a Module Info, in order. *)
Definition subModuleNames (i : ModuleInfo.t) : list string :=
  ModuleInfo.name <$> ModuleInfo.subModules i.

(** The event that the settlement of one promise of a batch leaves. *)
Definition event_of (p : string * Settled ModuleInfo.t) : Event :=
  match p.2 with
  | Fulfilled _ => Attached p.1
  | Rejected _ => Failed p.1
  end.

(** The store in which the lookups of a fetching section are issued, and
    the array whose elements are looked up. *)
Definition prepared (bundleInfo : loc)
    (section : ResolvedBundleDefinition.ResolvedSection) (h : Heap)
    : loc * Heap :=
  let modules := ResolvedBundleDefinition.modules section in
  let h1 :=
    if bool_decide (ResolvedBundleDefinition.mode section = Raw)
       && negb (length (array_get h modules) =? 0)
    then update_info bundleInfo ModuleInfo.setRawModule h
    else h in
  if decide (ResolvedBundleDefinition.mode section = Preload) then
    ((slice modules h1).1, sort (slice modules h1).1 (slice modules h1).2)
  else (modules, h1).

(** The Module Infos with which promises of a batch were fulfilled. *)
Definition fulfilled (items : list (string * Settled ModuleInfo.t))
    : list ModuleInfo.t :=
  omap (λ p, match p.2 with
             | Fulfilled subinfo => Some subinfo
             | Rejected _ => None
             end) items.

(** A Raw section that lists at least one module. *)
Definition lists_raw (h : Heap)
    (section : ResolvedBundleDefinition.ResolvedSection) : bool :=
  bool_decide (ResolvedBundleDefinition.mode section = Raw)
  && negb (length (array_get h (ResolvedBundleDefinition.modules section))
           =? 0).

(** The names that a fetching section looks up, in the order of the
    lookups. *)
Definition fetched_names (h : Heap)
    (section : ResolvedBundleDefinition.ResolvedSection) : list string :=
  if decide (ResolvedBundleDefinition.mode section = Preload)
  then merge_sort String.le
         (array_get h (ResolvedBundleDefinition.modules section))
  else array_get h (ResolvedBundleDefinition.modules section).

(** Every module list of the bundle definition is an array of the store. *)
Definition allocated (h : Heap) (this : ResolvedBundleDefinition.t) : Prop :=
  Forall (λ section,
            ResolvedBundleDefinition.modules section < length (arrays h))
         (ResolvedBundleDefinition.sections this).

(** What identifies a lookup of the analyzer: the module asked for and the
    node that asked. *)
Definition lookup_key (p : XMLTemplateAnalyzer.Pending)
    : string * XMLTemplateAnalyzer.Node :=
  (XMLTemplateAnalyzer.moduleName p, XMLTemplateAnalyzer.node p).

(** The lookup was answered with a resource. *)
Definition was_found (p : XMLTemplateAnalyzer.Pending) : bool :=
  match outcome (XMLTemplateAnalyzer.response p) with
  | Fulfilled _ => true
  | Rejected _ => false
  end.

(** The callbacks of a batch of lookups in the order in which they run. *)
Definition callbacks (this : XMLTemplateAnalyzer.t)
    : list XMLTemplateAnalyzer.Pending :=
  settle_order
    ((λ p, (delay (XMLTemplateAnalyzer.response p), p))
       <$> XMLTemplateAnalyzer.promises this).

(** No dependency is flagged conditional in [i'] that was not already
    flagged conditional in [i]. *)
Definition no_new_conditional (i i' : ModuleInfo.t) : Prop :=
  ∀ d, ModuleInfo.isConditionalDependency d i' = Some true →
       ModuleInfo.isConditionalDependency d i = Some true.

(** The same for the Module Info at [l] of two stores. *)
Definition quiet (l : loc) (h h' : Heap) : Prop :=
  ∀ i, infos h !! l = Some i →
    ∃ i', infos h' !! l = Some i' ∧ no_new_conditional i i'.

(** The lookups that the traversal of a tree issues, read off the tree
    alone: the node itself when its namespace makes it a candidate, then
    those of its children from left to right. *)
Fixpoint candidates (fromUI5LegacyName : string → option string → string)
    (n : XMLTemplateAnalyzer.Node)
    : list (string * XMLTemplateAnalyzer.Node) :=
  let namespace := default "" (XMLTemplateAnalyzer.ns_uri n) in
  (if decide (namespace = XMLTemplateAnalyzer.TEMPLATING_NAMESPACE) then []
   else if bool_decide (namespace = XMLTemplateAnalyzer.XHTML_NAMESPACE)
           || bool_decide (namespace = XMLTemplateAnalyzer.SVG_NAMESPACE)
   then []
   else if XMLTemplateAnalyzer.PATTERN_LIBRARY_NAMESPACES namespace then
     let moduleName :=
       fromUI5LegacyName
         ((namespace +:+ ".") +:+ XMLTemplateAnalyzer.ns_local n) None in
     if decide (XMLTemplateAnalyzer.FRAGMENTDEFINITION_MODULE ≠ moduleName)
     then [(moduleName, n)] else []
   else [])
  ++ flat_map (candidates fromUI5LegacyName) (XMLTemplateAnalyzer.children n).

(** Every character of the string is one that may continue an identifier. *)
Fixpoint all_part (s : string) : bool :=
  match s with
  | EmptyString => true
  | String c s' => XMLTemplateAnalyzer.ident_part c && all_part s'
  end.

(** An identifier of a library namespace: a first character, then
    characters that may continue it. *)
Definition identifier (s : string) : bool :=
  match s with
  | EmptyString => false
  | String c s' => XMLTemplateAnalyzer.ident_start c && all_part s'
  end.

(** The segments, each preceded by a dot. *)
Fixpoint dotted_tail (segments : list string) : string :=
  match segments with
  | [] => EmptyString
  | g :: rest => String "."%char (g +:+ dotted_tail rest)
  end.

(** [h'] comes from [h] by method calls on the Module Info at [l] and
    nothing else. *)
Definition only_info (l : loc) (h h' : Heap) : Prop :=
  ∃ g, h' = update_info l g h.

(** The module is not recorded otherwise in [i'] than in [i] as a
    dependency of itself, and has kept its name. *)
Definition self_kept (i i' : ModuleInfo.t) : Prop :=
  ModuleInfo.name i' = ModuleInfo.name i
  ∧ ModuleInfo.isConditionalDependency (ModuleInfo.name i) i'
    = ModuleInfo.isConditionalDependency (ModuleInfo.name i) i.

(** * Properties *)

(** ** The order of settlement *)

Lemma enqueue_perm {A} (x : nat * A) l : enqueue x l ≡ₚ x :: l.
Proof.
  induction l as [|y l IH]; simpl; [done|].
  case_decide; [done|]. rewrite IH. apply Permutation_swap.
Qed.

Lemma settle_order_perm {A} (batch : list (nat * A)) :
  settle_order batch ≡ₚ batch.*2.
Proof.
  unfold settle_order. induction batch as [|x batch IH]; simpl; [done|].
  rewrite enqueue_perm. simpl. by rewrite IH.
Qed.

Lemma settle_order_elem {A} (batch : list (nat * A)) x :
  x ∈ settle_order batch ↔ x ∈ batch.*2.
Proof. by rewrite settle_order_perm. Qed.

Lemma enqueue_sorted {A} (batch : list (nat * A)) :
  StronglySorted (≤) batch.*1 → foldr enqueue [] batch = batch.
Proof.
  induction batch as [|x batch IH]; simpl; [done|].
  intros [Hx Hs]%StronglySorted_cons. rewrite (IH Hs).
  destruct batch as [|y l]; simpl; [done|].
  rewrite decide_True; [done|]. by apply Forall_cons_1 in Hx as [? _].
Qed.

(** Promises that settle in the order of their registration run their
    callbacks in that order. *)
Lemma settle_order_sorted {A} (batch : list (nat * A)) :
  StronglySorted (≤) batch.*1 → settle_order batch = batch.*2.
Proof. intros Hs. unfold settle_order. by rewrite enqueue_sorted. Qed.

(** ** Bundle resolution *)

Module ResolverFacts.
Import ResolvedBundleDefinition.

#[local] Instance frame_refl l : Reflexive (frame l).
Proof.
  intros h. split; [done|]. exists id. symmetry. by apply list_alter_id.
Qed.

#[local] Instance frame_trans l : Transitive (frame l).
Proof.
  intros h1 h2 h3 [Ha [g Hg]] [Ha' [g' Hg']]. split; [by etrans|].
  exists (g' ∘ g). by rewrite Hg', Hg, list_alter_alter_eq.
Qed.

Lemma frame_update_info l f h : frame l h (update_info l f h).
Proof. split; [done|]. by exists f. Qed.

Lemma frame_slice l r h : frame l h (slice r h).2.
Proof.
  split; simpl; [by apply prefix_app_r|].
  exists id. symmetry. by apply list_alter_id.
Qed.

(** Sorting a fresh copy leaves the arrays that existed before alone. *)
Lemma frame_slice_sort l r h : frame l h (sort (slice r h).1 (slice r h).2).
Proof.
  split; simpl.
  - rewrite alter_app_r_alt by done. rewrite Nat.sub_diag.
    by apply prefix_app_r.
  - exists id. symmetry. by apply list_alter_id.
Qed.

Lemma array_get_slice_sort r h :
  array_get (sort (slice r h).1 (slice r h).2) (slice r h).1
  = merge_sort String.le (array_get h r).
Proof.
  unfold array_get at 1. simpl.
  rewrite alter_app_r_alt by done. rewrite Nat.sub_diag. simpl.
  by rewrite list_lookup_middle.
Qed.

Lemma frame_array_get l h h' r :
  frame l h h' → r < length (arrays h) → array_get h' r = array_get h r.
Proof.
  intros [Hp _] Hr. unfold array_get.
  apply lookup_lt_is_Some_2 in Hr as [xs Hxs].
  rewrite Hxs. by erewrite prefix_lookup_Some.
Qed.

Lemma frame_arrays_length l h h' :
  frame l h h' → length (arrays h) ≤ length (arrays h').
Proof. intros [Hp _]. by apply prefix_length. Qed.

Lemma frame_infos_length l h h' :
  frame l h h' → length (infos h') = length (infos h).
Proof. intros [_ [g ->]]. apply length_alter. Qed.

Lemma frame_infos_other l h h' j :
  frame l h h' → l ≠ j → infos h' !! j = infos h !! j.
Proof. intros [_ [g ->]] ?. by apply list_lookup_alter_ne. Qed.

(** *** The lookups of one section *)

Lemma request_log pool names log :
  (request pool names log).2 = log ++ (Requested <$> names).
Proof.
  revert log. induction names as [|m names IH]; intros log; simpl.
  - by rewrite app_nil_r.
  - specialize (IH (log ++ [Requested m])).
    destruct (request pool names (log ++ [Requested m])) as [batch log'].
    simpl in *. by rewrite IH, <- app_assoc.
Qed.

Lemma request_names pool names log :
  ((request pool names log).1).*2.*1 = names.
Proof.
  revert log. induction names as [|m names IH]; intros log; simpl; [done|].
  specialize (IH (log ++ [Requested m])).
  destruct (request pool names (log ++ [Requested m])) as [batch log'].
  simpl in *. by f_equal.
Qed.

(** Every element of the batch is a pool answer to a request for one of
    the names. *)
Lemma request_answers pool names log p :
  p ∈ ((request pool names log).1).*2 →
  p.1 ∈ names ∧ ∃ k, p.2 = outcome (getModuleInfo pool k p.1).
Proof.
  revert log. induction names as [|m names IH]; intros log; simpl.
  - by intros ?%elem_of_nil.
  - specialize (IH (log ++ [Requested m])).
    destruct (request pool names (log ++ [Requested m])) as [batch log'].
    simpl in *. intros [->|Hp]%elem_of_cons; simpl.
    + split; [left|]. by eexists.
    + destruct (IH Hp) as [? ?]. split; [by right|done].
Qed.

Lemma settle_frame bundleInfo items st :
  frame bundleInfo (heap st.1) (heap (foldl (settle bundleInfo) st items).1)
  ∧ log (foldl (settle bundleInfo) st items).1
    = log st.1 ++ (event_of <$> items).
Proof.
  revert st. induction items as [|p items IH]; intros st; simpl.
  - split; [done|]. by rewrite app_nil_r.
  - destruct (IH (settle bundleInfo st p)) as [Hf Hl]. split.
    + etrans; [|exact Hf]. unfold settle.
      destruct p.2; simpl; [apply frame_update_info|done].
    + rewrite Hl. unfold settle, event_of.
      destruct p.2; simpl; by rewrite <- app_assoc.
Qed.

(** A rejection, once recorded, stays; and with a rejected promise in the
    batch the join is rejected, with the reason of a rejected promise. *)
Lemma settle_failure_kept bundleInfo items run e :
  (foldl (settle bundleInfo) (run, Some e) items).2 = Some e.
Proof.
  revert run. induction items as [|p items IH]; intros run; simpl; [done|].
  unfold settle at 2. destruct p.2; simpl; apply IH.
Qed.

Lemma settle_failure bundleInfo items run :
  match (foldl (settle bundleInfo) (run, None) items).2 with
  | Some e => ∃ p, p ∈ items ∧ p.2 = Rejected e
  | None => ∀ p, p ∈ items → ∃ subinfo, p.2 = Fulfilled subinfo
  end.
Proof.
  revert run. induction items as [|p items IH]; intros run; simpl.
  - by intros p ?%elem_of_nil.
  - unfold settle at 2. destruct p.2 as [subinfo|e] eqn:Hp; simpl.
    + specialize (IH (mkRun
        (update_info bundleInfo (ModuleInfo.addSubModule subinfo) (heap run))
        (log run ++ [Attached p.1]))).
      destruct (foldl _ _ items).2 as [e|].
      * destruct IH as (q & ? & ?). exists q. split; [by right|done].
      * intros q [->|?]%elem_of_cons; [by eexists|by apply IH].
    + rewrite settle_failure_kept. exists p. split; [left|done].
Qed.

(** *** One section *)

Lemma section_step_fetch pool bundleInfo section run :
  mode section ≠ Provided → mode section ≠ Require_ →
  let mh := prepared bundleInfo section (heap run) in
  let rq := request pool (array_get mh.2 mh.1) (log run) in
  let st := foldl (settle bundleInfo) (mkRun mh.2 rq.2, None)
              (settle_order rq.1) in
  section_step pool bundleInfo section run
  = (match st.2 with Some e => Rejected e | None => Fulfilled () end, st.1).
Proof.
  intros HP HR. unfold section_step, prepared.
  rewrite (decide_False _ _ HP), (decide_False _ _ HR).
  destruct (decide (mode section = Preload)); simpl;
    destruct (request _ _ _) as [batch log1]; simpl;
    by destruct (foldl _ _ _) as [run' failure].
Qed.

Lemma prepared_frame bundleInfo section h :
  frame bundleInfo h (prepared bundleInfo section h).2.
Proof.
  unfold prepared.
  set (h1 := if _ && _ then _ else _).
  assert (frame bundleInfo h h1) as H1.
  { unfold h1. destruct (_ && _); [apply frame_update_info|done]. }
  destruct (decide _); cbn [fst snd]; [|done].
  etrans; [exact H1|]. apply frame_slice_sort.
Qed.

(** The names looked up: the module list as declared, and sorted for a
    Preload section. *)
Lemma prepared_names bundleInfo section h :
  let mh := prepared bundleInfo section h in
  array_get mh.2 mh.1 =
    if decide (mode section = Preload)
    then merge_sort String.le (array_get h (modules section))
    else array_get h (modules section).
Proof.
  unfold prepared.
  set (h1 := if _ && _ then _ else _).
  assert (∀ r, array_get h1 r = array_get h r) as H1.
  { intros r. unfold h1. by destruct (_ && _). }
  destruct (decide _); cbn [fst snd]; [|apply H1].
  by rewrite array_get_slice_sort, H1.
Qed.

Lemma prepared_names_perm bundleInfo section h :
  let mh := prepared bundleInfo section h in
  array_get mh.2 mh.1 ≡ₚ array_get h (modules section).
Proof.
  simpl. rewrite prepared_names. destruct (decide _); [|done].
  apply merge_sort_Permutation.
Qed.

Lemma foldl_update_info l (f : string → ModuleInfo.t → ModuleInfo.t) ms h :
  foldl (λ h m, update_info l (f m) h) h ms
  = update_info l (λ i, foldl (λ acc m, f m acc) i ms) h.
Proof.
  revert h. induction ms as [|m ms IH]; intros h; simpl.
  - destruct h as [a i]. unfold update_info. simpl. f_equal.
    symmetry. by apply list_alter_id.
  - rewrite IH. unfold update_info. simpl. f_equal.
    by rewrite list_alter_alter_eq.
Qed.

Lemma section_step_frame pool bundleInfo section run :
  frame bundleInfo (heap run)
    (heap (section_step pool bundleInfo section run).2)
  ∧ ∃ evs,
      log (section_step pool bundleInfo section run).2 = log run ++ evs.
Proof.
  destruct (decide (mode section = Provided)) as [HP|HP].
  { unfold section_step. rewrite (decide_True _ _ HP). simpl.
    split; [done|]. exists []. by rewrite app_nil_r. }
  destruct (decide (mode section = Require_)) as [HR|HR].
  { unfold section_step. rewrite (decide_False _ _ HP), (decide_True _ _ HR).
    simpl. split; [|exists []; by rewrite app_nil_r].
    rewrite foldl_update_info. apply frame_update_info. }
  rewrite (section_step_fetch _ _ _ _ HP HR). simpl.
  match goal with |- context [foldl ?f ?st ?items] =>
    destruct (settle_frame bundleInfo items st) as [Hf Hl] end.
  simpl in *. split.
  - etrans; [apply prepared_frame|exact Hf].
  - rewrite Hl, request_log, <- app_assoc. by eexists.
Qed.

Lemma chain_frame pool bundleInfo sections run :
  frame bundleInfo (heap run) (heap (chain pool bundleInfo sections run).2)
  ∧ ∃ evs, log (chain pool bundleInfo sections run).2 = log run ++ evs.
Proof.
  revert run. induction sections as [|section rest IH]; intros run; simpl.
  - split; [done|]. exists []. by rewrite app_nil_r.
  - destruct (section_step_frame pool bundleInfo section run) as [Hf [evs Hl]].
    destruct (section_step pool bundleInfo section run) as [[[]|e] run'];
      simpl in *; [|split; [done|by eexists]].
    destruct (IH run') as [Hf' [evs' Hl']]. split; [by etrans|].
    rewrite Hl', Hl, <- app_assoc. by eexists.
Qed.

(** *** Derived queries *)

Lemma existsb_elem {A} (f : A → bool) (l : list A) :
  existsb f l = true ↔ ∃ x, x ∈ l ∧ f x = true.
Proof.
  rewrite existsb_exists. by setoid_rewrite list_elem_of_In.
Qed.

Lemma some_equal (x : string) (l : list string) :
  existsb (λ y, bool_decide (y = x)) l = true ↔ x ∈ l.
Proof.
  rewrite existsb_elem. split.
  - by intros (y & Hy & ->%bool_decide_eq_true).
  - intros ?. exists x. split; [done|]. by apply bool_decide_eq_true.
Qed.

Lemma raw_or_require (section : ResolvedSection) :
  bool_decide (mode section = Raw) || bool_decide (mode section = Require_)
  = true ↔ mode section = Raw ∨ mode section = Require_.
Proof.
  rewrite orb_true_iff. by rewrite !bool_decide_eq_true.
Qed.

(** C3.  On a resolved bundle definition, [containsCore] holds exactly
    when a Raw or Require section lists the core module, [containsGlobal]
    exactly when a Raw section lists the legacy global module, and
    [executes(name)] exactly when a Raw or Require section lists [name].
    Each query is a function of the sections and of the current contents
    of their module arrays, and returns nothing but its answer. *)
Theorem derived_queries (core global : string) (h : Heap) (this : t)
    (moduleName : string) :
  (containsCore core h this = true ↔
     ∃ section, section ∈ sections this
       ∧ (mode section = Raw ∨ mode section = Require_)
       ∧ core ∈ array_get h (modules section))
  ∧ (containsGlobal global h this = true ↔
       ∃ section, section ∈ sections this
         ∧ mode section = Raw
         ∧ global ∈ array_get h (modules section))
  ∧ (executes h this moduleName = true ↔
       ∃ section, section ∈ sections this
         ∧ (mode section = Raw ∨ mode section = Require_)
         ∧ moduleName ∈ array_get h (modules section)).
Proof.
  unfold containsCore, containsGlobal, executes.
  rewrite !existsb_elem. split; [|split].
  - split; intros (section & Hin & H); exists section; split; try done.
    + apply andb_true_iff in H as [Hm Hc].
      by rewrite <- raw_or_require, <- some_equal.
    + destruct H as [Hm Hc]. apply andb_true_iff.
      by rewrite raw_or_require, some_equal.
  - split; intros (section & Hin & H); exists section; split; try done.
    + apply andb_true_iff in H as [Hm%bool_decide_eq_true Hc].
      by rewrite <- some_equal.
    + destruct H as [Hm Hc]. apply andb_true_iff.
      by rewrite bool_decide_eq_true, some_equal.
  - split; intros (section & Hin & H); exists section; split; try done.
    + apply andb_true_iff in H as [Hm Hc].
      by rewrite <- raw_or_require, <- some_equal.
    + destruct H as [Hm Hc]. apply andb_true_iff.
      by rewrite raw_or_require, some_equal.
Qed.

(** *** Sections in declared order *)

Lemma chain_app pool bundleInfo pre post run :
  chain pool bundleInfo (pre ++ post) run =
    match chain pool bundleInfo pre run with
    | (Fulfilled _, run1) => chain pool bundleInfo post run1
    | (Rejected e, run1) => (Rejected e, run1)
    end.
Proof.
  revert run. induction pre as [|section pre IH]; intros run; simpl; [done|].
  destruct (section_step pool bundleInfo section run) as [[[]|e] run'];
    [apply IH|done].
Qed.



Lemma addDependency_fields ms i :
  let i' := foldl (λ acc m, ModuleInfo.addDependency m false acc) i ms in
  ModuleInfo.name i' = ModuleInfo.name i
  ∧ ModuleInfo.implicitDependencies i' = ModuleInfo.implicitDependencies i
  ∧ ModuleInfo.rawModule i' = ModuleInfo.rawModule i
  ∧ ModuleInfo.subModules i' = ModuleInfo.subModules i.
Proof.
  revert i. induction ms as [|m ms IH]; intros i; simpl; [done|].
  destruct (IH (ModuleInfo.addDependency m false i)) as (-> & -> & -> & ->).
  unfold ModuleInfo.addDependency. by destruct (decide _).
Qed.



(** [createModuleInfo] in terms of the chain run on the store with the new
    bundle info. *)
Lemma createModuleInfo_chain pool this run :
  createModuleInfo pool this run =
    let bundleInfo := length (infos (heap run)) in
    let c := chain pool bundleInfo (sections this)
               (mkRun (mkHeap (arrays (heap run))
                         (infos (heap run) ++ [ModuleInfo.create (name this)]))
                      (log run)) in
    (match c.1 with
     | Fulfilled _ => Fulfilled bundleInfo
     | Rejected e => Rejected e
     end, c.2).
Proof.
  unfold createModuleInfo, new_ModuleInfo. cbn zeta.
  by destruct (chain _ _ _ _) as [[[]|e] run'].
Qed.

(** *** Nothing but the new bundle info is written *)

(** C10.  [createModuleInfo] leaves every array that existed before as it
    was, so the module list of every section still has its declared
    order: a Preload section is sorted in a copy.  It leaves every Module
    Info that existed before as it was and allocates exactly one new one,
    which is what a fulfilled call returns; a later call returns another
    one. *)
Theorem createModuleInfo_mutates_nothing pool this run :
  let r := createModuleInfo pool this run in
  arrays (heap run) `prefix_of` arrays (heap r.2)
  ∧ (∀ section, section ∈ sections this →
       modules section < length (arrays (heap run)) →
       array_get (heap r.2) (modules section)
       = array_get (heap run) (modules section))
  ∧ (∃ bundleInfo, infos (heap r.2) = infos (heap run) ++ [bundleInfo])
  ∧ (∀ l, r.1 = Fulfilled l → l = length (infos (heap run)))
  ∧ (∀ pool' this' l l',
       r.1 = Fulfilled l →
       (createModuleInfo pool' this' r.2).1 = Fulfilled l' → l ≠ l').
Proof.
  assert (∀ pool this run,
    let r := createModuleInfo pool this run in
    frame (length (infos (heap run)))
      (mkHeap (arrays (heap run))
              (infos (heap run) ++ [ModuleInfo.create (name this)]))
      (heap r.2)
    ∧ (∀ l, r.1 = Fulfilled l → l = length (infos (heap run))))
    as Hcreate.
  { clear. intros pool this run. unfold createModuleInfo, new_ModuleInfo.
    match goal with |- context [chain ?p ?b ?ss ?r] =>
      destruct (chain_frame p b ss r) as [Hf _];
      destruct (chain p b ss r) as [[[]|e] run'] end; simpl in *.
    - split; [done|]. by intros l [= <-].
    - split; [done|]. by intros l [=]. }
  intros r. destruct (Hcreate pool this run) as [Hf Hl]. fold r in Hf, Hl.
  assert (∃ bundleInfo, infos (heap r.2) = infos (heap run) ++ [bundleInfo])
    as [bundleInfo Hinfos].
  { destruct Hf as [_ [g ->]]. simpl.
    rewrite alter_app_r_alt by done. rewrite Nat.sub_diag. by eexists. }
  split; [apply Hf|]. split; [|split; [by eexists|split; [done|]]].
  - intros section _ Hlt. exact (frame_array_get _ _ _ _ Hf Hlt).
  - intros pool' this' l l' ->%Hl Hl'.
    destruct (Hcreate pool' this' r.2) as [_ Hl2].
    apply Hl2 in Hl'. subst l'. rewrite Hinfos, length_app. simpl. lia.
Qed.

(** *** Failing lookups *)

Lemma request_complete pool names log m :
  m ∈ names →
  ∃ p, p ∈ ((request pool names log).1).*2 ∧ p.1 = m
     ∧ ∃ k, p.2 = outcome (getModuleInfo pool k m).
Proof.
  revert log. induction names as [|m' names IH]; intros log Hin; simpl.
  - by apply elem_of_nil in Hin.
  - specialize (IH (log ++ [Requested m'])).
    destruct (request pool names (log ++ [Requested m'])) as [batch log'].
    simpl in *. apply elem_of_cons in Hin as [->|Hin].
    + eexists (_, _). split; [left|]. simpl. split; [done|by eexists].
    + destruct (IH Hin) as (p & ? & ? & ?). exists p. split; [by right|done].
Qed.

(** A section whose step is rejected made a lookup that the pool rejected,
    with that reason. *)
Lemma section_step_rejected pool bundleInfo section run e :
  (section_step pool bundleInfo section run).1 = Rejected e →
  ∃ m k evs,
    log (section_step pool bundleInfo section run).2 = log run ++ evs
    ∧ Failed m ∈ evs
    ∧ outcome (getModuleInfo pool k m) = Rejected e.
Proof.
  destruct (decide (mode section = Provided)) as [HP|HP].
  { unfold section_step. by rewrite (decide_True _ _ HP). }
  destruct (decide (mode section = Require_)) as [HR|HR].
  { unfold section_step.
    by rewrite (decide_False _ _ HP), (decide_True _ _ HR). }
  rewrite (section_step_fetch _ _ _ _ HP HR). cbn zeta.
  set (mh := prepared bundleInfo section (heap run)).
  set (rq := request pool (array_get mh.2 mh.1) (log run)).
  pose proof (settle_failure bundleInfo (settle_order rq.1)
                (mkRun mh.2 rq.2)) as Hfail.
  destruct (settle_frame bundleInfo (settle_order rq.1)
              (mkRun mh.2 rq.2, None)) as [_ Hlog].
  simpl in Hlog |- *.
  destruct (foldl _ _ _).2 as [e'|]; [|done].
  intros [= ->]. destruct Hfail as (p & Hp & Hrej).
  pose proof (proj1 (settle_order_elem _ _) Hp) as Hp'.
  apply request_answers in Hp' as [_ [k Hk]].
  exists p.1, k. eexists. split; [|split].
  - rewrite Hlog. unfold rq. rewrite request_log, <- app_assoc. done.
  - apply elem_of_app. right. apply list_elem_of_fmap.
    exists p. split; [|done]. unfold event_of. by rewrite Hrej.
  - by rewrite <- Hk.
Qed.

(** A fetching section whose step is fulfilled had every listed module
    answered by the pool. *)
Lemma section_step_fulfilled pool bundleInfo section run u m :
  mode section = Raw ∨ mode section = Preload →
  (section_step pool bundleInfo section run).1 = Fulfilled u →
  m ∈ array_get (heap run) (modules section) →
  ∃ k subinfo, outcome (getModuleInfo pool k m) = Fulfilled subinfo.
Proof.
  intros Hmode.
  assert (mode section ≠ Provided) as HP by (by destruct Hmode as [-> | ->]).
  assert (mode section ≠ Require_) as HR by (by destruct Hmode as [-> | ->]).
  rewrite (section_step_fetch _ _ _ _ HP HR). cbn zeta.
  set (mh := prepared bundleInfo section (heap run)).
  set (rq := request pool (array_get mh.2 mh.1) (log run)).
  pose proof (settle_failure bundleInfo (settle_order rq.1)
                (mkRun mh.2 rq.2)) as Hfail.
  simpl. destruct (foldl _ _ _).2 as [e'|]; [done|].
  intros _ Hm.
  assert (m ∈ array_get mh.2 mh.1) as Hm'.
  { unfold mh. by rewrite prepared_names_perm. }
  destruct (request_complete pool _ (log run) m Hm') as (p & Hp & <- & k & Hk).
  destruct (Hfail p) as [subinfo Hsub];
    [exact (proj2 (settle_order_elem _ _) Hp)|].
  exists k, subinfo. by rewrite <- Hk.
Qed.

Lemma chain_rejects pool bundleInfo sections run section m :
  section ∈ sections →
  mode section = Raw ∨ mode section = Preload →
  m ∈ array_get (heap run) (modules section) →
  (∀ k, ∃ e, outcome (getModuleInfo pool k m) = Rejected e) →
  ∃ e m' k evs,
    (chain pool bundleInfo sections run).1 = Rejected e
    ∧ log (chain pool bundleInfo sections run).2 = log run ++ evs
    ∧ Failed m' ∈ evs
    ∧ outcome (getModuleInfo pool k m') = Rejected e.
Proof.
  intros Hin Hmode Hm Hpool. revert run Hm.
  induction sections as [|s0 rest IH]; intros run Hm; simpl.
  - by apply elem_of_nil in Hin.
  - destruct (section_step_frame pool bundleInfo s0 run) as [Hf [evs Hl]].
    pose proof (section_step_rejected pool bundleInfo s0 run) as Hrej.
    pose proof (section_step_fulfilled pool bundleInfo s0 run) as Hful.
    destruct (section_step pool bundleInfo s0 run) as [[[]|e] run'];
      simpl in *.
    + apply elem_of_cons in Hin as [->|Hin].
      { destruct (Hful () m Hmode eq_refl Hm) as (k & subinfo & Hk).
        destruct (Hpool k) as [e He]. congruence. }
      assert (modules section < length (arrays (heap run))) as Hlt.
      { apply lookup_lt_is_Some. unfold array_get in Hm.
        destruct (arrays (heap run) !! modules section); [done|].
        by apply elem_of_nil in Hm. }
      destruct (IH Hin run') as (e & m' & k & evs' & He & Hl' & Hf' & Hk).
      { by rewrite (frame_array_get _ _ _ _ Hf Hlt). }
      exists e, m', k, (evs ++ evs'). repeat split; try done.
      * by rewrite Hl', Hl, <- app_assoc.
      * apply elem_of_app. by right.
    + destruct (Hrej e eq_refl) as (m' & k & evs' & Hl' & Hf' & Hk).
      by exists e, m', k, evs'.
Qed.

(** C6.  When the pool rejects the lookup of a module that a Raw or
    Preload section lists, the promise of [createModuleInfo] is rejected:
    no Module Info is delivered, and the reason is the one with which the
    pool rejected a lookup that this resolution made. *)
Theorem createModuleInfo_propagates_failure pool this run section m :
  section ∈ sections this →
  mode section = Raw ∨ mode section = Preload →
  m ∈ array_get (heap run) (modules section) →
  (∀ k, ∃ e, outcome (getModuleInfo pool k m) = Rejected e) →
  ∃ e m' k evs,
    (createModuleInfo pool this run).1 = Rejected e
    ∧ log (createModuleInfo pool this run).2 = log run ++ evs
    ∧ Failed m' ∈ evs
    ∧ outcome (getModuleInfo pool k m') = Rejected e.
Proof.
  intros Hin Hmode Hm Hpool. unfold createModuleInfo, new_ModuleInfo.
  match goal with |- context [chain ?p ?b ?ss ?r] =>
    destruct (chain_rejects p b ss r section m Hin Hmode Hm Hpool)
      as (e & m' & k & evs & He & Hl & Hf & Hk);
    destruct (chain p b ss r) as [[[]|e'] run'] end; simpl in *; [done|].
  exists e, m', k, evs. by simplify_eq.
Qed.

(** *** What a section does to the bundle info *)

Lemma update_info_id l h : update_info l (λ i, i) h = h.
Proof.
  destruct h as [a i]. unfold update_info. simpl. f_equal.
  by apply list_alter_id.
Qed.

Lemma update_info_compose l f g h :
  update_info l f (update_info l g h) = update_info l (f ∘ g) h.
Proof. unfold update_info. simpl. f_equal. apply list_alter_alter_eq. Qed.

Lemma update_info_lookup l f h i :
  infos h !! l = Some i → infos (update_info l f h) !! l = Some (f i).
Proof. intros Hi. simpl. by rewrite list_lookup_alter_eq, Hi. Qed.

Lemma settle_heap bundleInfo items st :
  heap (foldl (settle bundleInfo) st items).1
  = update_info bundleInfo
      (λ i, foldl (λ acc sub, ModuleInfo.addSubModule sub acc) i
              (fulfilled items))
      (heap st.1).
Proof.
  revert st. induction items as [|p items IH]; intros st; simpl.
  - by rewrite update_info_id.
  - rewrite IH. unfold settle, fulfilled. simpl.
    destruct p.2; simpl; [|done]. by rewrite update_info_compose.
Qed.

Lemma addSubModule_fields subs i :
  let i' := foldl (λ acc sub, ModuleInfo.addSubModule sub acc) i subs in
  ModuleInfo.rawModule i' = ModuleInfo.rawModule i
  ∧ ModuleInfo.subModules i' = ModuleInfo.subModules i ++ subs.
Proof.
  revert i. induction subs as [|sub subs IH]; intros i; simpl.
  - by rewrite app_nil_r.
  - destruct (IH (ModuleInfo.addSubModule sub i)) as [-> ->]. simpl.
    by rewrite <- app_assoc.
Qed.

Lemma prepared_infos bundleInfo section h i :
  infos h !! bundleInfo = Some i →
  ∃ i', infos (prepared bundleInfo section h).2 !! bundleInfo = Some i'
      ∧ ModuleInfo.rawModule i'
        = ModuleInfo.rawModule i || lists_raw h section
      ∧ ModuleInfo.subModules i' = ModuleInfo.subModules i.
Proof.
  intros Hi. unfold prepared. fold (lists_raw h section).
  assert (∃ i', infos (if lists_raw h section
                       then update_info bundleInfo ModuleInfo.setRawModule h
                       else h) !! bundleInfo = Some i'
              ∧ ModuleInfo.rawModule i'
                = ModuleInfo.rawModule i || lists_raw h section
              ∧ ModuleInfo.subModules i' = ModuleInfo.subModules i) as H.
  { destruct (lists_raw h section).
    - eexists. split; [by apply update_info_lookup|]. simpl.
      by rewrite orb_true_r.
    - exists i. by rewrite orb_false_r. }
  by destruct (decide _).
Qed.

(** The bundle info after the step of a section: the raw flag is set by a
    Raw section that lists a module, and the submodules grow by the
    fetched Module Infos in the order in which their lookups settled. *)
Lemma section_step_info pool bundleInfo section run i :
  infos (heap run) !! bundleInfo = Some i →
  ∃ i', infos (heap (section_step pool bundleInfo section run).2)
          !! bundleInfo = Some i'
      ∧ ModuleInfo.rawModule i'
        = ModuleInfo.rawModule i || lists_raw (heap run) section
      ∧ ModuleInfo.subModules i'
        = ModuleInfo.subModules i ++
          if decide (mode section = Provided ∨ mode section = Require_)
          then []
          else fulfilled (settle_order
                 (request pool (fetched_names (heap run) section)
                    (log run)).1).
Proof.
  intros Hi.
  destruct (decide (mode section = Provided)) as [HP|HP].
  { unfold section_step, lists_raw. rewrite (decide_True _ _ HP).
    rewrite decide_True by (by left). exists i. rewrite HP. simpl.
    by rewrite orb_false_r, app_nil_r. }
  destruct (decide (mode section = Require_)) as [HR|HR].
  { unfold section_step, lists_raw.
    rewrite (decide_False _ _ HP), (decide_True _ _ HR).
    rewrite decide_True by (by right). simpl. rewrite foldl_update_info.
    eexists. split; [by apply update_info_lookup|].
    destruct (addDependency_fields
                (array_get (heap run) (modules section)) i)
      as (_ & _ & -> & ->).
    rewrite HR. simpl. by rewrite orb_false_r, app_nil_r. }
  rewrite decide_False by tauto.
  rewrite (section_step_fetch _ _ _ _ HP HR). cbn zeta. cbn [snd].
  rewrite settle_heap. cbn [fst heap].
  destruct (prepared_infos bundleInfo section (heap run) i Hi)
    as (i1 & Hi1 & Hraw & Hsub).
  eexists. split; [by apply update_info_lookup|].
  match goal with |- context [foldl ?f i1 ?subs] =>
    destruct (addSubModule_fields subs i1) as [-> ->] end.
  rewrite Hraw, Hsub. split; [done|]. do 3 f_equal.
  pose proof (prepared_names bundleInfo section (heap run)) as Hn.
  simpl in Hn. by rewrite Hn.
Qed.

(** *** Sections in declared order, end to end *)






Lemma lists_raw_frame l h h' section :
  frame l h h' → modules section < length (arrays h) →
  lists_raw h' section = lists_raw h section.
Proof.
  intros Hf Hlt. unfold lists_raw. by rewrite (frame_array_get _ _ _ _ Hf Hlt).
Qed.

Lemma chain_raw pool bundleInfo sections run i :
  Forall (λ section, modules section < length (arrays (heap run))) sections →
  infos (heap run) !! bundleInfo = Some i →
  ∃ i', infos (heap (chain pool bundleInfo sections run).2)
          !! bundleInfo = Some i'
      ∧ ∀ u, (chain pool bundleInfo sections run).1 = Fulfilled u →
          ModuleInfo.rawModule i'
          = ModuleInfo.rawModule i || existsb (lists_raw (heap run)) sections.
Proof.
  revert run i. induction sections as [|s0 rest IH]; intros run i Hwf Hi.
  - exists i. split; [done|]. intros _ _. simpl. by rewrite orb_false_r.
  - simpl. apply Forall_cons_1 in Hwf as [Hs0 Hrest].
    destruct (section_step_frame pool bundleInfo s0 run) as [Hf _].
    destruct (section_step_info pool bundleInfo s0 run i Hi)
      as (i1 & Hi1 & Hraw & _).
    destruct (section_step pool bundleInfo s0 run) as [[[]|e] run'];
      simpl in *; [|exists i1; split; [done|by intros u [=]]].
    destruct (IH run' i1) as (i' & Hi' & Hraw'); [|done|].
    { eapply Forall_impl; [exact Hrest|]. intros s Hs. simpl in *.
      pose proof (frame_arrays_length _ _ _ Hf). lia. }
    exists i'. split; [done|]. intros u Hu. rewrite (Hraw' u Hu), Hraw.
    rewrite <- orb_assoc. do 2 f_equal.
    apply eq_true_iff_eq. rewrite !existsb_elem.
    split; intros (s & Hs & Hl); exists s; (split; [done|]);
      rewrite Forall_forall in Hrest;
      by rewrite (lists_raw_frame _ _ _ s Hf (Hrest s Hs)) in *.
Qed.

(** The raw flag of a resolved bundle: set exactly when a Raw section
    lists at least one module. *)
Lemma rawModule_iff pool this run l :
  allocated (heap run) this →
  (createModuleInfo pool this run).1 = Fulfilled l →
  ∃ i, infos (heap (createModuleInfo pool this run).2) !! l = Some i
     ∧ (ModuleInfo.rawModule i = true ↔
          ∃ section, section ∈ sections this ∧ mode section = Raw
            ∧ array_get (heap run) (modules section) ≠ []).
Proof.
  intros Hwf. rewrite createModuleInfo_chain. cbn zeta. cbn [fst snd].
  set (h0 := mkHeap _ _).
  destruct (chain_raw pool (length (infos (heap run))) (sections this)
              (mkRun h0 (log run)) (ModuleInfo.create (name this)))
    as (i & Hi & Hraw); [exact Hwf|apply list_lookup_middle; done|].
  destruct (chain _ _ _ _).1 as [[]|e] eqn:E; [|done].
  intros [= <-]. exists i. split; [done|].
  rewrite (Hraw () eq_refl). cbn [ModuleInfo.rawModule ModuleInfo.create orb].
  rewrite existsb_elem.
  assert (∀ s, lists_raw (heap (mkRun h0 (log run))) s
               = bool_decide (mode s = Raw)
                 && negb (length (array_get (heap run) (modules s)) =? 0))
    as Hlr by done.
  split; intros (s & Hs & H); exists s; (split; [done|]).
  - rewrite Hlr in H.
    apply andb_true_iff in H as [Hm%bool_decide_eq_true Hl].
    split; [done|]. intros Hnil. by rewrite Hnil in Hl.
  - destruct H as [Hm Hne]. rewrite Hlr.
    rewrite bool_decide_eq_true_2 by done.
    by destruct (array_get (heap run) (modules s)).
Qed.

(** *** Lookups that settle in the order of the requests *)

Lemma request_delays pool names log d :
  d ∈ ((request pool names log).1).*1 →
  ∃ k m, length log ≤ k ∧ d = delay (getModuleInfo pool k m).
Proof.
  revert log. induction names as [|m names IH]; intros log; simpl.
  - by intros ?%elem_of_nil.
  - specialize (IH (log ++ [Requested m])).
    destruct (request pool names (log ++ [Requested m])) as [batch log'].
    simpl in *. intros [->|Hd]%elem_of_cons; [by eauto|].
    destruct (IH Hd) as (k & m' & Hk & ->).
    rewrite length_app in Hk. simpl in Hk. exists k, m'. split; [lia|done].
Qed.

Lemma request_fifo pool names log :
  fifo pool → StronglySorted (≤) ((request pool names log).1).*1.
Proof.
  intros Hfifo. revert log.
  induction names as [|m names IH]; intros log; simpl; [constructor|].
  pose proof (request_delays pool names (log ++ [Requested m])) as Hd.
  specialize (IH (log ++ [Requested m])).
  destruct (request pool names (log ++ [Requested m])) as [batch log'].
  simpl in *. constructor; [done|].
  apply Forall_forall. intros d (k & m' & Hk & ->)%Hd.
  apply Hfifo. rewrite length_app in Hk. simpl in Hk. lia.
Qed.

Lemma request_Forall2 pool names log :
  Forall2 (λ m p, p.1 = m ∧ ∃ k, p.2 = outcome (getModuleInfo pool k m))
    names ((request pool names log).1).*2.
Proof.
  revert log. induction names as [|m names IH]; intros log; simpl;
    [constructor|].
  specialize (IH (log ++ [Requested m])).
  destruct (request pool names (log ++ [Requested m])) as [batch log'].
  simpl in *. constructor; [|done]. simpl. split; [done|by eexists].
Qed.

Lemma fulfilled_Forall2 items :
  (∀ p, p ∈ items → ∃ subinfo, p.2 = Fulfilled subinfo) →
  Forall2 (λ p subinfo, p.2 = Fulfilled subinfo) items (fulfilled items).
Proof.
  induction items as [|p items IH]; intros H; [constructor|].
  destruct (H p) as [subinfo Hp]; [left|].
  unfold fulfilled. simpl. rewrite Hp. simpl. constructor; [done|].
  apply IH. intros q Hq. apply H. by right.
Qed.

(** With a pool that settles lookups in the order of the requests, a
    fetching section attaches the fetched Module Infos in the order of its
    module list: as declared for Raw, sorted for Preload. *)
Lemma fetch_in_request_order pool bundleInfo section run i u :
  fifo pool →
  mode section = Raw ∨ mode section = Preload →
  infos (heap run) !! bundleInfo = Some i →
  (section_step pool bundleInfo section run).1 = Fulfilled u →
  ∃ i' subs,
    infos (heap (section_step pool bundleInfo section run).2) !! bundleInfo
    = Some i'
    ∧ ModuleInfo.subModules i' = ModuleInfo.subModules i ++ subs
    ∧ Forall2 (λ m subinfo,
                 ∃ k, outcome (getModuleInfo pool k m) = Fulfilled subinfo)
        (fetched_names (heap run) section) subs.
Proof.
  intros Hfifo Hmode Hi Hu.
  assert (mode section ≠ Provided) as HP by (by destruct Hmode as [-> | ->]).
  assert (mode section ≠ Require_) as HR by (by destruct Hmode as [-> | ->]).
  destruct (section_step_info pool bundleInfo section run i Hi)
    as (i' & Hi' & _ & Hsub).
  rewrite decide_False in Hsub by tauto.
  rewrite (settle_order_sorted _ (request_fifo _ _ _ Hfifo)) in Hsub.
  exists i'. eexists. split; [done|]. split; [done|].
  rewrite (section_step_fetch _ _ _ _ HP HR) in Hu. cbn zeta in Hu.
  pose proof (prepared_names bundleInfo section (heap run)) as Hn.
  cbn zeta in Hn. fold (fetched_names (heap run) section) in Hn.
  rewrite Hn in Hu. simpl in Hu.
  match type of Hu with context [foldl ?f (?r, None) ?items] =>
    pose proof (settle_failure bundleInfo items r) as Hfail;
    destruct (foldl f (r, None) items).2 as [e|]; [done|] end.
  rewrite (settle_order_sorted _ (request_fifo _ _ _ Hfifo)) in Hfail.
  apply fulfilled_Forall2 in Hfail.
  pose proof (request_Forall2 pool (fetched_names (heap run) section)
                (log run)) as Hreq.
  revert Hreq Hfail. generalize (fulfilled
    ((request pool (fetched_names (heap run) section) (log run)).1).*2).
  generalize (((request pool (fetched_names (heap run) section)
                  (log run)).1).*2).
  generalize (fetched_names (heap run) section).
  clear. intros names items subs Hreq. revert subs.
  induction Hreq as [|m p names items [_ [k Hk]] _ IH]; intros subs Hf;
    inversion Hf; subst; constructor; [|by apply IH].
  exists k. congruence.
Qed.

(** With such a pool, the order in which the modules of a Preload section
    are declared does not matter. *)
Lemma fetched_names_preload h section section' :
  mode section = Preload → mode section' = Preload →
  array_get h (modules section) ≡ₚ array_get h (modules section') →
  fetched_names h section = fetched_names h section'
  ∧ Sorted String.le (fetched_names h section).
Proof.
  intros Hm Hm' Hperm. unfold fetched_names.
  rewrite !decide_True by done. split; [|apply Sorted_merge_sort, _].
  apply (Sorted_unique String.le); [apply Sorted_merge_sort, _..|].
  by rewrite !merge_sort_Permutation.
Qed.

(** *** Runs on concrete bundles *)

(** C2.  A Preload section declared as [b.js, a.js] is sorted before its
    modules are looked up: [a.js] is requested first.  The pool has a cold
    cache, so the Module Info of [a.js] arrives a turn after that of
    [b.js]; the callback of [b.js] runs first and the submodules of the
    resolved bundle are [b.js, a.js], which is not the sorted order.  A
    second bundle definition that declares the same modules as
    [a.js, b.js], resolved next against the same pool, gets the submodules
    [a.js, b.js]: the two orders differ. *)
Theorem preload_attached_as_settled :
  let r := createModuleInfo Sample.cold_pool Sample.preload_bundle
             Sample.fresh_run in
  let r' := createModuleInfo Sample.cold_pool
              (mk "other.js" [mkSection Preload 2]) r.2 in
  array_get (heap Sample.fresh_run) 0 = ["b.js"; "a.js"]
  ∧ array_get (heap Sample.fresh_run) 2 = ["a.js"; "b.js"]
  ∧ r.1 = Fulfilled 0
  ∧ log r.2 = [Requested "a.js"; Requested "b.js";
               Attached "b.js"; Attached "a.js"]
  ∧ subModuleNames <$> infos (heap r.2) !! 0 = Some ["b.js"; "a.js"]
  ∧ r'.1 = Fulfilled 1
  ∧ subModuleNames <$> infos (heap r'.2) !! 1 = Some ["a.js"; "b.js"].
Proof. vm_compute. repeat split. Qed.

(** C4.  A Raw section declared as [x.js, y.js] marks the bundle as a raw
    module, and its modules are looked up in that order.  The pool has a
    cold cache, so the Module Info of [x.js] arrives a turn after that of
    [y.js]: the submodules of the resolved bundle are [y.js, x.js], which
    is not the declared order. *)
Theorem raw_attached_as_settled :
  let r := createModuleInfo Sample.cold_pool Sample.raw_bundle
             Sample.fresh_run in
  array_get (heap Sample.fresh_run) 1 = ["x.js"; "y.js"]
  ∧ r.1 = Fulfilled 0
  ∧ log r.2 = [Requested "x.js"; Requested "y.js";
               Attached "y.js"; Attached "x.js"]
  ∧ ModuleInfo.rawModule <$> infos (heap r.2) !! 0 = Some true
  ∧ subModuleNames <$> infos (heap r.2) !! 0 = Some ["y.js"; "x.js"].
Proof. vm_compute. repeat split. Qed.


Lemma createModuleInfo_mutates_nothing_witness :
  array_get
    (heap (createModuleInfo Sample.prompt_pool Sample.preload_bundle
             Sample.fresh_run).2) 0
  = ["b.js"; "a.js"].
Proof.
  destruct (createModuleInfo_mutates_nothing Sample.prompt_pool
              Sample.preload_bundle Sample.fresh_run) as (_ & Hsame & _).
  transitivity (array_get (heap Sample.fresh_run) 0); [|reflexivity].
  apply (Hsame (mkSection Preload 0)); [left|simpl; lia].
Defined.

Lemma createModuleInfo_propagates_failure_witness :
  ∃ e m' k evs,
    (createModuleInfo Sample.partial_pool Sample.broken_bundle
       Sample.fresh_run).1 = Rejected e
    ∧ log (createModuleInfo Sample.partial_pool Sample.broken_bundle
             Sample.fresh_run).2 = log Sample.fresh_run ++ evs
    ∧ Failed m' ∈ evs
    ∧ outcome (getModuleInfo Sample.partial_pool k m') = Rejected e.
Proof.
  apply (createModuleInfo_propagates_failure Sample.partial_pool
           Sample.broken_bundle Sample.fresh_run (mkSection Preload 4)
           "missing.js").
  - right. left.
  - right. reflexivity.
  - right. left.
  - intros k. eexists. reflexivity.
Defined.

End ResolverFacts.

(** ** Markup analysis *)

Module AnalyzerFacts.
Import XMLTemplateAnalyzer.

(** *** The synchronous traversal *)

Section Traversal.
Context (pool : ResourcePool).
Context (parseString : string → JsError + option Node).
Context (fromUI5LegacyName : string → option string → string).

Abbreviation _analyzeNode := (_analyzeNode pool fromUI5LegacyName).
Abbreviation start := (start pool parseString fromUI5LegacyName).

(** A node leaves [busy] and [info] alone and leaves the conditional
    flag as it found it. *)
Lemma _analyzeNode_fields n this :
  busy (_analyzeNode n this) = busy this
  ∧ info (_analyzeNode n this) = info this
  ∧ conditional (_analyzeNode n this) = conditional this.
Proof.
  revert this. induction n as [uri local attributes kids IH]
    using Node_forall. intros this. simpl.
  set (this1 := if decide _ then _ else _).
  assert (busy this1 = busy this ∧ info this1 = info this) as [Hb Hi].
  { unfold this1. repeat (case_decide || case_match); done. }
  clearbody this1. rewrite <- Hb, <- Hi. clear Hb Hi.
  split; [|split; [|done]].
  - revert this1. induction IH as [|c kids Hc _ IHk]; intros this1;
      simpl; [done|]. rewrite IHk. apply Hc.
  - revert this1. induction IH as [|c kids Hc _ IHk]; intros this1;
      simpl; [done|]. rewrite IHk. apply Hc.
Qed.

Lemma _analyzeChildren_fields n this :
  busy (_analyzeChildren pool fromUI5LegacyName n this) = busy this
  ∧ info (_analyzeChildren pool fromUI5LegacyName n this) = info this
  ∧ conditional (_analyzeChildren pool fromUI5LegacyName n this)
    = conditional this.
Proof.
  unfold _analyzeChildren. revert this.
  induction (children n) as [|c kids IH]; intros this; simpl; [done|].
  destruct (IH (_analyzeNode c this)) as (-> & -> & ->).
  apply _analyzeNode_fields.
Qed.

(** When the traversal has returned the instance is busy, holds the
    caller's Module Info, and its conditional flag is down. *)
Lemma start_traversed xml l isFragment this h this' h' :
  start xml l isFragment this h = (Traversed, this', h') →
  busy this' = true ∧ info this' = Some l ∧ conditional this' = false.
Proof.
  unfold start. destruct (busy this); [done|].
  destruct (parseString xml) as [err|[root|]];
    [done| |by destruct isFragment].
  destruct isFragment.
  - intros [= <- _]. apply _analyzeNode_fields.
  - unfold _analyzeViewRootNode. intros [= <- _].
    apply _analyzeChildren_fields.
Qed.

End Traversal.

Section Collaborators.
Context (pool : ResourcePool).
Context (parseString : string → JsError + option Node).
Context (fromUI5LegacyName : string → option string → string).

Abbreviation _analyzeNode := (_analyzeNode pool fromUI5LegacyName).
Abbreviation start := (start pool parseString fromUI5LegacyName).
Abbreviation _analyze := (_analyze pool parseString fromUI5LegacyName).

(** *** Busy instance *)

(** C8.  A call of [analyzeView] or [analyzeFragment] on an instance
    that is busy throws [Error("analyzer is busy")] before anything is
    assigned: no promise is returned, and the instance (its Module Info
    reference, conditional flag and pending lookups) and the store are
    exactly as before. *)
Theorem busy_instance_throws xml l this h :
  busy this = true →
  analyzeView pool parseString fromUI5LegacyName xml l this h
  = (Threw (Error "analyzer is busy"), this, h)
  ∧ analyzeFragment pool parseString fromUI5LegacyName xml l this h
    = (Threw (Error "analyzer is busy"), this, h).
Proof.
  intros Hbusy.
  unfold analyzeView, analyzeFragment, XMLTemplateAnalyzer._analyze,
    XMLTemplateAnalyzer.start.
  by rewrite Hbusy.
Qed.

(** *** Parse failure *)

(** When the parser reports an error, the promise returned by
    [analyzeView] or [analyzeFragment] is rejected with that error, the
    store is unchanged, so nothing was added to the Module Info, and
    the instance is not busy afterwards: a further call does not
    throw. *)
Theorem parse_error_rejects xml l isFragment this h err :
  busy this = false →
  parseString xml = inl err →
  ∃ this',
    _analyze xml l isFragment this h = (Returned (Rejected err), this', h)
    ∧ busy this' = false
    ∧ ∀ xml' l' isFragment' e,
        (_analyze xml' l' isFragment' this' h).1.1 ≠ Threw e.
Proof.
  intros Hbusy Hparse. eexists. split; [|split].
  - unfold XMLTemplateAnalyzer._analyze, XMLTemplateAnalyzer.start.
    by rewrite Hbusy, Hparse.
  - done.
  - intros xml' l' isFragment' e.
    unfold XMLTemplateAnalyzer._analyze, XMLTemplateAnalyzer.start. simpl.
    destruct (parseString xml') as [err'|[root'|]]; [done|..];
      by destruct isFragment'.
Qed.

(** C9.  A malformed document for which the parser reports no error but
    delivers no root either (a document without a root element) is not
    handled as a parse failure: the callback takes the branch of a
    successful parse, adds the implicit dependency to the Module Info and
    then throws on the first access to the node.  The promise is rejected
    with that exception, not with a parse error, the Module Info has
    been changed, and the instance stays busy: every later call on it
    throws [Error("analyzer is busy")]. *)
Theorem rootless_document_leaves_instance_busy xml l isFragment this h i :
  busy this = false →
  parseString xml = inr None →
  infos h !! l = Some i →
  ∃ e this' h',
    _analyze xml l isFragment this h = (Returned (Rejected e), this', h')
    ∧ busy this' = true
    ∧ infos h' !! l
      = Some (ModuleInfo.addImplicitDependency
                (if isFragment then FRAGMENT_MODULE else XMLVIEW_MODULE) i)
    ∧ ∀ xml' l' isFragment' h'',
        _analyze xml' l' isFragment' this' h''
        = (Threw (Error "analyzer is busy"), this', h'').
Proof.
  intros Hbusy Hparse Hi.
  unfold XMLTemplateAnalyzer._analyze, XMLTemplateAnalyzer.start.
  rewrite Hbusy, Hparse.
  destruct isFragment; do 3 eexists; (split; [reflexivity|]);
    (split; [done|]); (split; [|done]);
    unfold addImplicitDependency; cbn [info update_info infos];
    by rewrite list_lookup_alter_eq, Hi.
Qed.

(** *** Lookups that the pool rejects *)

(** The lookups that a traversal issues do not depend on what the pool
    answers. *)
Lemma _analyzeNode_oblivious pool' n this this' :
  conditional this = conditional this' →
  lookup_key <$> promises this = lookup_key <$> promises this' →
  lookup_key <$> promises (_analyzeNode n this)
  = lookup_key <$>
      promises (XMLTemplateAnalyzer._analyzeNode pool' fromUI5LegacyName
                  n this').
Proof.
  revert this this'. induction n as [uri local attributes kids IH]
    using Node_forall. intros this this' Hc Hp. simpl.
  set (this1 := if decide _ then _ else _).
  set (this1' := if decide _ then _ else _).
  assert (conditional this1 = conditional this1'
          ∧ lookup_key <$> promises this1 = lookup_key <$> promises this1')
    as [Hc1 Hp1].
  { unfold this1, this1'.
    repeat (case_decide || case_match); simpl; try done;
      split; try done; rewrite !fmap_app; by rewrite Hp. }
  clearbody this1 this1'. clear Hc Hp. revert this1 this1' Hc1 Hp1.
  induction IH as [|c kids Hc _ IHk]; intros this1 this1' Hc1 Hp1;
    simpl; [done|].
  apply IHk; [|by apply Hc].
  destruct (_analyzeNode_fields pool fromUI5LegacyName c this1)
    as (_ & _ & ->).
  destruct (_analyzeNode_fields pool' fromUI5LegacyName c this1')
    as (_ & _ & ->).
  done.
Qed.

Lemma _analyzeChildren_oblivious pool' n this this' :
  conditional this = conditional this' →
  lookup_key <$> promises this = lookup_key <$> promises this' →
  lookup_key <$> promises (_analyzeChildren pool fromUI5LegacyName n this)
  = lookup_key <$>
      promises (_analyzeChildren pool' fromUI5LegacyName n this').
Proof.
  unfold _analyzeChildren. revert this this'.
  induction (children n) as [|c kids IH]; intros this this' Hc Hp;
    simpl; [done|].
  apply IH; [|by apply _analyzeNode_oblivious].
  destruct (_analyzeNode_fields pool fromUI5LegacyName c this)
    as (_ & _ & ->).
  destruct (_analyzeNode_fields pool' fromUI5LegacyName c this')
    as (_ & _ & ->).
  done.
Qed.

Lemma start_oblivious pool' xml l isFragment this h :
  lookup_key <$> promises (start xml l isFragment this h).1.2
  = lookup_key <$>
      promises (XMLTemplateAnalyzer.start pool' parseString
                  fromUI5LegacyName xml l isFragment this h).1.2.
Proof.
  unfold XMLTemplateAnalyzer.start. destruct (busy this); [done|].
  destruct (parseString xml) as [err|[root|]];
    [done| |by destruct isFragment].
  destruct isFragment; simpl.
  - by apply _analyzeNode_oblivious.
  - by apply _analyzeChildren_oblivious.
Qed.

(** A lookup that the pool rejects leaves the store as it is. *)
Lemma settle_rejected this h p :
  was_found p = false → settle fromUI5LegacyName this h p = h.
Proof. unfold was_found, settle. by destruct (outcome (response p)). Qed.

Lemma settle_found this h p :
  was_found p = true →
  settle fromUI5LegacyName this h p = found fromUI5LegacyName p this h.
Proof. unfold was_found, settle. by destruct (outcome (response p)). Qed.

(** Only the lookups that the pool answers contribute to the result. *)
Lemma settle_all_found this h :
  settle_all fromUI5LegacyName this h
  = foldl (λ h p, found fromUI5LegacyName p this h) h
      (filter (λ p, was_found p = true) (callbacks this)).
Proof.
  unfold settle_all. fold (callbacks this). revert h.
  induction (callbacks this) as [|p ps IH]; intros h; simpl; [done|].
  rewrite filter_cons. destruct (was_found p) eqn:Hp.
  - rewrite decide_True by done. simpl. rewrite <- IH.
    by rewrite settle_found.
  - rewrite decide_False by done. rewrite <- IH.
    by rewrite settle_rejected.
Qed.

(** *** The conditional flag at the time of the callbacks *)

Lemma flagOf_record_unconditional d m deps :
  ModuleInfo.flagOf d (ModuleInfo.record m false deps) = Some true →
  ModuleInfo.flagOf d deps = Some true.
Proof.
  induction deps as [|[d0 c] deps IH]; simpl.
  - case_decide; intros ?; simplify_eq.
  - destruct (decide (d0 = m)) as [->|Hne]; simpl.
    + destruct (decide (m = d)); [|done].
      rewrite andb_false_r. intros ?. simplify_eq.
    + destruct (decide (d0 = d)); [done|apply IH].
Qed.

#[local] Instance quiet_refl l : Reflexive (quiet l).
Proof. intros h i Hi. exists i. split; [done|]. by intros d Hd. Qed.

#[local] Instance quiet_trans l : Transitive (quiet l).
Proof.
  intros h1 h2 h3 H12 H23 i Hi.
  destruct (H12 i Hi) as (i2 & Hi2 & Hn2).
  destruct (H23 i2 Hi2) as (i3 & Hi3 & Hn3).
  exists i3. split; [done|]. intros d Hd. by apply Hn2, Hn3.
Qed.

Lemma quiet_update_info l f h :
  (∀ i, no_new_conditional i (f i)) → quiet l h (update_info l f h).
Proof.
  intros Hf i Hi. exists (f i). split; [|apply Hf]. simpl.
  by rewrite list_lookup_alter_eq, Hi.
Qed.

Lemma quiet_addDependency m this h l :
  info this = Some l → conditional this = false →
  quiet l h (_addDependency m this h).
Proof.
  intros Hl Hc. unfold _addDependency. rewrite Hl, Hc.
  destruct (infos h !! l) as [i|]; [|done].
  destruct (decide _); [done|].
  apply quiet_update_info. clear. intros i d.
  unfold ModuleInfo.addDependency. destruct (decide _); [done|].
  apply flagOf_record_unconditional.
Qed.

Lemma quiet_addImplicitDependency m this h l :
  info this = Some l → quiet l h (addImplicitDependency m this h).
Proof.
  intros Hl. unfold addImplicitDependency. rewrite Hl.
  apply quiet_update_info. clear. intros i d.
  unfold ModuleInfo.addImplicitDependency.
  by repeat destruct (decide _).
Qed.

Lemma quiet_found p this h l :
  info this = Some l → conditional this = false →
  quiet l h (found fromUI5LegacyName p this h).
Proof.
  intros Hl Hc. unfold found.
  pose proof (λ m h, quiet_addDependency m this h l Hl Hc) as Hadd.
  repeat (case_decide || case_match); try done;
    (etrans; [apply Hadd|]); done || apply Hadd.
Qed.

Lemma quiet_settle_all this h l :
  info this = Some l → conditional this = false →
  quiet l h (settle_all fromUI5LegacyName this h).
Proof.
  intros Hl Hc. rewrite settle_all_found. revert h.
  induction (filter _ _) as [|p ps IH]; intros h; simpl; [done|].
  etrans; [|apply IH]. by apply quiet_found.
Qed.

Lemma quiet_analyzeViewRootNode n this h l :
  info this = Some l → conditional this = false →
  quiet l h (_analyzeViewRootNode pool fromUI5LegacyName n this h).2.
Proof.
  intros Hl Hc. unfold _analyzeViewRootNode. cbn zeta. cbn [snd].
  destruct (getAttribute n XMLVIEW_RESBUNDLENAME_ATTRIBUTE);
    destruct (getAttribute n XMLVIEW_CONTROLLERNAME_ATTRIBUTE);
    repeat first
      [ by apply quiet_addImplicitDependency
      | etrans; [|by apply quiet_addDependency] ].
Qed.

Lemma quiet_start xml l isFragment this h :
  quiet l h (start xml l isFragment this h).2.
Proof.
  unfold XMLTemplateAnalyzer.start. destruct (busy this); [done|].
  destruct (parseString xml) as [err|[root|]]; [done| |];
    [|by destruct isFragment; apply quiet_addImplicitDependency].
  destruct isFragment.
  - by apply quiet_addImplicitDependency.
  - pose proof (quiet_analyzeViewRootNode root
                  (mk true (Some l) false []) h l eq_refl eq_refl) as H.
    by destruct (_analyzeViewRootNode _ _ _ _ _).
Qed.

(** An analysis never flags a dependency as conditional: every call of
    [addDependency] that it makes passes [false], whatever the place of
    the node in the tree, because the traversal has returned, and has
    put the flag down again, before the first callback runs. *)
Lemma analysis_records_unconditionally xml l isFragment this h :
  quiet l h (_analyze xml l isFragment this h).2.
Proof.
  unfold XMLTemplateAnalyzer._analyze.
  pose proof (quiet_start xml l isFragment this h) as Hq.
  pose proof (start_traversed pool parseString fromUI5LegacyName
                xml l isFragment this h) as Ht.
  destruct (start xml l isFragment this h) as [[[e|e|e|] this'] h'];
    simpl in *; try done.
  destruct (Ht this' h' eq_refl) as (_ & Hl & Hc).
  etrans; [exact Hq|]. by apply quiet_settle_all.
Qed.

End Collaborators.

(** *** Runs on concrete trees *)

(** C1.  The fragment [conditional_button] has one Button, inside a
    [template:if].  The pool knows every module.  The analysis completes
    and records the Button, not as a conditional dependency but as an
    unconditional one: the callback that records it runs after the
    traversal has left the [template:if] and has restored the flag.  With
    a second Button next to the [template:if] the result is the same. *)
Theorem conditional_scope_lost :
  let r := analyzeFragment Sample.prompt_pool Sample.parseString
             ModuleName.fromUI5LegacyName "conditional_button" 0
             create Sample.fragment_heap in
  let r' := analyzeFragment Sample.prompt_pool Sample.parseString
              ModuleName.fromUI5LegacyName "both_buttons" 0
              create Sample.fragment_heap in
  r.1.1 = Returned (Fulfilled 0)
  ∧ lookup_key <$> promises r.1.2 = [("sap/m/Button.js", Sample.button)]
  ∧ infos r.2 !! 0
      ≫= ModuleInfo.isConditionalDependency "sap/m/Button.js"
    = Some false
  ∧ ModuleInfo.implicitDependencies <$> infos r.2 !! 0
    = Some ["sap/ui/core/Fragment.js"]
  ∧ infos r'.2 !! 0
      ≫= ModuleInfo.isConditionalDependency "sap/m/Button.js"
    = Some false.
Proof. vm_compute. repeat split. Qed.

(** An instance in the middle of an analysis: the traversal of
    [Sample.page] has returned and its three lookups are pending. *)
Lemma busy_instance_throws_witness :
  let s := start Sample.prompt_pool Sample.parseString
             ModuleName.fromUI5LegacyName "page" 0 true create
             Sample.fragment_heap in
  length (promises s.1.2) = 3
  ∧ analyzeView Sample.prompt_pool Sample.parseString
      ModuleName.fromUI5LegacyName "conditional_button" 0 s.1.2 s.2
    = (Threw (Error "analyzer is busy"), s.1.2, s.2)
  ∧ analyzeFragment Sample.prompt_pool Sample.parseString
      ModuleName.fromUI5LegacyName "conditional_button" 0 s.1.2 s.2
    = (Threw (Error "analyzer is busy"), s.1.2, s.2).
Proof.
  split; [reflexivity|].
  apply (busy_instance_throws Sample.prompt_pool Sample.parseString
           ModuleName.fromUI5LegacyName).
  reflexivity.
Defined.

(** The empty document as a fragment: the Module Info has gained the
    implicit dependency on the fragment class, the promise is rejected
    with the exception of the callback and the instance is busy. *)
Lemma rootless_document_leaves_instance_busy_witness :
  ∃ e this' h',
    XMLTemplateAnalyzer.analyzeFragment Sample.prompt_pool
      Sample.parseString ModuleName.fromUI5LegacyName "" 0 create
      Sample.fragment_heap
    = (Returned (Rejected e), this', h')
    ∧ busy this' = true
    ∧ ModuleInfo.implicitDependencies <$> infos h' !! 0
      = Some ["sap/ui/core/Fragment.js"]
    ∧ ModuleInfo.implicitDependencies <$> infos Sample.fragment_heap !! 0
      = Some []
    ∧ XMLTemplateAnalyzer.analyzeFragment Sample.prompt_pool
        Sample.parseString ModuleName.fromUI5LegacyName "page" 0 this' h'
      = (Threw (Error "analyzer is busy"), this', h').
Proof.
  destruct (rootless_document_leaves_instance_busy Sample.prompt_pool
              Sample.parseString ModuleName.fromUI5LegacyName "" 0 true
              create Sample.fragment_heap
              (ModuleInfo.create "my/app/Main.fragment.xml")
              eq_refl eq_refl eq_refl)
    as (e & this' & h' & Hr & Hb & Hi & Hnext).
  exists e, this', h'. split; [exact Hr|]. split; [exact Hb|].
  split; [by rewrite Hi|]. split; [reflexivity|]. apply Hnext.
Defined.

Lemma parse_error_rejects_witness :
  ∃ this',
    XMLTemplateAnalyzer._analyze Sample.prompt_pool Sample.parseString
      ModuleName.fromUI5LegacyName "<mvc:View" 0 false create
      Sample.fragment_heap
    = (Returned (Rejected (Error "Unclosed root tag")), this',
       Sample.fragment_heap)
    ∧ busy this' = false
    ∧ ∀ xml' l' isFragment' e,
        (XMLTemplateAnalyzer._analyze Sample.prompt_pool Sample.parseString
           ModuleName.fromUI5LegacyName xml' l' isFragment' this'
           Sample.fragment_heap).1.1 ≠ Threw e.
Proof.
  apply (parse_error_rejects Sample.prompt_pool Sample.parseString
           ModuleName.fromUI5LegacyName "<mvc:View" 0 false create
           Sample.fragment_heap (Error "Unclosed root tag"));
    reflexivity.
Defined.

End AnalyzerFacts.


(** ** More on the markup analysis *)

Module AnalyzerLaws.
Import XMLTemplateAnalyzer AnalyzerFacts.

(** *** The pattern of library namespaces *)

Lemma append_cons c a b : String c a +:+ b = String c (a +:+ b).
Proof. reflexivity. Qed.

Lemma append_nil b : "" +:+ b = b.
Proof. reflexivity. Qed.

Lemma part_not_dot c : ident_part c = true → c ≠ "."%char.
Proof. by intros H ->. Qed.

Lemma dotted_split s :
  (dotted false s = true →
     ∃ r rest, all_part r = true
       ∧ Forall (λ g, identifier g = true) rest
       ∧ s = r +:+ dotted_tail rest)
  ∧ (dotted true s = true →
       ∃ g rest, identifier g = true
         ∧ Forall (λ g, identifier g = true) rest
         ∧ s = g +:+ dotted_tail rest).
Proof.
  induction s as [|c s [IHf IHt]]; cbn [dotted negb]; split.
  - intros _. by exists "", [].
  - done.
  - case_bool_decide as Hc.
    + intros (g & rest & Hg & Hrest & ->)%IHt.
      exists "", (g :: rest). subst c. split_and!; try done.
      by constructor.
    + intros [Hp (r & rest & Hr & Hrest & ->)%IHf]%andb_true_iff.
      exists (String c r), rest. split_and!; try done.
      simpl. by rewrite Hp.
  - intros [Hp (r & rest & Hr & Hrest & ->)%IHf]%andb_true_iff.
    exists (String c r), rest. split_and!; try done.
    simpl. by rewrite Hp.
Qed.

Lemma dotted_join rest :
  Forall (λ g, identifier g = true) rest →
  ∀ r, all_part r = true → dotted false (r +:+ dotted_tail rest) = true.
Proof.
  induction 1 as [|g rest Hg _ IH]; intros r;
    induction r as [|c r IHr]; cbn [all_part]; intros Hr.
  - done.
  - apply andb_true_iff in Hr as [Hc Hr]. rewrite append_cons.
    cbn [dotted]. rewrite bool_decide_eq_false_2 by by apply part_not_dot.
    by rewrite Hc, IHr.
  - rewrite append_nil. cbn [dotted_tail dotted].
    rewrite bool_decide_eq_true_2 by done.
    destruct g as [|c g]; [done|]. simpl in Hg.
    apply andb_true_iff in Hg as [Hc Hg]. rewrite append_cons.
    cbn [dotted]. by rewrite Hc, IH.
  - apply andb_true_iff in Hr as [Hc Hr]. rewrite append_cons.
    cbn [dotted]. rewrite bool_decide_eq_false_2 by by apply part_not_dot.
    by rewrite Hc, IHr.
Qed.

(** The pattern of library namespaces accepts exactly the identifiers
    joined by single dots, at least one; an identifier starts with a
    letter, [_] or [$] and goes on with characters of the codes 65 to 122
    (the letters and the six characters between them), digits, [_] and
    [$].  In particular the empty namespace is not accepted. *)
Theorem pattern_accepts_dotted_identifiers namespace :
  PATTERN_LIBRARY_NAMESPACES namespace = true ↔
  ∃ g rest, identifier g = true
    ∧ Forall (λ g, identifier g = true) rest
    ∧ namespace = g +:+ dotted_tail rest.
Proof.
  unfold PATTERN_LIBRARY_NAMESPACES. split.
  - apply dotted_split.
  - intros (g & rest & Hg & Hrest & ->).
    destruct g as [|c g]; [done|]. simpl in Hg.
    apply andb_true_iff in Hg as [Hc Hg]. rewrite append_cons.
    cbn [dotted]. by rewrite Hc, dotted_join.
Qed.

Section Collaborators.
Context (pool : ResourcePool).
Context (parseString : string → JsError + option Node).
Context (fromUI5LegacyName : string → option string → string).

Abbreviation _analyzeNode := (_analyzeNode pool fromUI5LegacyName).
Abbreviation _analyzeChildren := (_analyzeChildren pool fromUI5LegacyName).
Abbreviation start := (start pool parseString fromUI5LegacyName).
Abbreviation _analyze := (_analyze pool parseString fromUI5LegacyName).

(** *** The lookups of a traversal *)

Lemma pattern_not_empty namespace :
  PATTERN_LIBRARY_NAMESPACES namespace = true → namespace ≠ "".
Proof. by intros H ->. Qed.

Lemma children_keys kids this :
  Forall (λ c, ∀ this,
            lookup_key <$> promises (_analyzeNode c this)
            = (lookup_key <$> promises this) ++ candidates fromUI5LegacyName c)
    kids →
  lookup_key <$>
    promises (foldl (λ acc child, _analyzeNode child acc) this kids)
  = (lookup_key <$> promises this)
    ++ flat_map (candidates fromUI5LegacyName) kids.
Proof.
  intros IH. revert this.
  induction IH as [|c kids Hc _ IHk]; intros this; simpl.
  - by rewrite app_nil_r.
  - by rewrite IHk, Hc, <- app_assoc.
Qed.

Lemma _analyzeNode_keys n this :
  lookup_key <$> promises (_analyzeNode n this)
  = (lookup_key <$> promises this) ++ candidates fromUI5LegacyName n.
Proof.
  revert this. induction n as [uri local attributes kids IH]
    using Node_forall. intros this.
  cbn [XMLTemplateAnalyzer._analyzeNode candidates ns_uri ns_local children
       promises].
  cbv zeta.
  rewrite (children_keys kids _ IH), app_assoc. f_equal.
  destruct (decide (default "" uri = TEMPLATING_NAMESPACE)).
  { destruct (TEMPLATING_CONDITONAL_TAGS local); simpl;
      by rewrite app_nil_r. }
  destruct (bool_decide _ || bool_decide _); [by rewrite app_nil_r|].
  destruct (PATTERN_LIBRARY_NAMESPACES (default "" uri)) eqn:HP;
    [|by rewrite app_nil_r].
  rewrite (decide_False _ _ (pattern_not_empty _ HP)).
  destruct (decide _); simpl; [|by rewrite app_nil_r].
  by rewrite fmap_app.
Qed.

(** What makes a node a candidate. *)
Lemma candidates_library n k :
  k ∈ candidates fromUI5LegacyName n →
  let namespace := default "" (ns_uri k.2) in
  PATTERN_LIBRARY_NAMESPACES namespace = true
  ∧ namespace ≠ TEMPLATING_NAMESPACE
  ∧ namespace ≠ XHTML_NAMESPACE
  ∧ namespace ≠ SVG_NAMESPACE
  ∧ k.1 = fromUI5LegacyName ((namespace +:+ ".") +:+ ns_local k.2) None
  ∧ k.1 ≠ FRAGMENTDEFINITION_MODULE.
Proof.
  revert k. induction n as [uri local attributes kids IH] using Node_forall.
  intros k.
  cbn [candidates ns_uri ns_local children]. cbv zeta.
  intros [Hown|Hkids]%elem_of_app.
  - destruct (decide (default "" uri = TEMPLATING_NAMESPACE)) as [|Ht];
      [by apply elem_of_nil in Hown|].
    destruct (bool_decide (default "" uri = XHTML_NAMESPACE)) eqn:Hx;
      [by apply elem_of_nil in Hown|].
    destruct (bool_decide (default "" uri = SVG_NAMESPACE)) eqn:Hs;
      [by apply elem_of_nil in Hown|].
    apply bool_decide_eq_false in Hx, Hs. simpl in Hown.
    destruct (PATTERN_LIBRARY_NAMESPACES (default "" uri)) eqn:HP;
      [|by apply elem_of_nil in Hown].
    destruct (decide _) as [Hf|]; [|by apply elem_of_nil in Hown].
    apply list_elem_of_singleton in Hown as ->. simpl.
    repeat split; first [done | by intros E; apply Hf].
  - apply list_elem_of_In, in_flat_map in Hkids as (c & Hc & Hk).
    rewrite Forall_forall in IH. apply (IH c); by apply list_elem_of_In.
Qed.

(** The lookups of a tree include those of every child of a node that
    is looked up, and with them those of everything below the child. *)
Lemma candidates_children n k c k' :
  k ∈ candidates fromUI5LegacyName n →
  c ∈ children k.2 →
  k' ∈ candidates fromUI5LegacyName c →
  k' ∈ candidates fromUI5LegacyName n.
Proof.
  revert k. induction n as [uri local attributes kids IH] using Node_forall.
  intros k Hk Hc Hk'. revert Hk.
  cbn [candidates ns_uri ns_local children]. cbv zeta.
  intros [Hown|Hkids]%elem_of_app; apply elem_of_app; right;
    apply list_elem_of_In, in_flat_map.
  - assert (k.2 = mkNode uri local attributes kids) as E.
    { repeat case_match; try by apply elem_of_nil in Hown.
      by apply list_elem_of_singleton in Hown as ->. }
    rewrite E in Hc. exists c. split; by apply list_elem_of_In.
  - apply list_elem_of_In, in_flat_map in Hkids as (c0 & Hc0 & Hk).
    exists c0. split; [done|]. apply list_elem_of_In.
    rewrite Forall_forall in IH.
    apply (IH c0 (proj2 (list_elem_of_In _ _) Hc0) k);
      [by apply list_elem_of_In|done..].
Qed.

(** A node of a library namespace is itself among the lookups of its
    tree. *)
Lemma candidates_own c :
  let namespace := default "" (ns_uri c) in
  let moduleName :=
    fromUI5LegacyName ((namespace +:+ ".") +:+ ns_local c) None in
  namespace ≠ TEMPLATING_NAMESPACE →
  namespace ≠ XHTML_NAMESPACE →
  namespace ≠ SVG_NAMESPACE →
  PATTERN_LIBRARY_NAMESPACES namespace = true →
  moduleName ≠ FRAGMENTDEFINITION_MODULE →
  (moduleName, c) ∈ candidates fromUI5LegacyName c.
Proof.
  intros namespace moduleName Ht Hx Hs HP Hf. destruct c as [uri local a kids].
  cbn [candidates ns_uri ns_local children]. cbv zeta.
  apply elem_of_app. left.
  cbn [ns_uri ns_local] in namespace, moduleName.
  fold namespace. fold moduleName.
  rewrite decide_False by done.
  rewrite !bool_decide_eq_false_2 by done. simpl. rewrite HP.
  rewrite decide_True by (by intros E; apply Hf).
  by apply list_elem_of_singleton.
Qed.

(** The lookups that the synchronous part of an analysis issues. *)
Lemma start_keys xml l isFragment this h root :
  busy this = false →
  parseString xml = inr (Some root) →
  lookup_key <$> promises (start xml l isFragment this h).1.2
  = if isFragment then candidates fromUI5LegacyName root
    else flat_map (candidates fromUI5LegacyName) (children root).
Proof.
  intros Hbusy Hparse. unfold XMLTemplateAnalyzer.start.
  rewrite Hbusy, Hparse. destruct isFragment; cbn [fst snd].
  - by rewrite _analyzeNode_keys.
  - unfold _analyzeViewRootNode. cbn [fst snd].
    unfold XMLTemplateAnalyzer._analyzeChildren.
    rewrite children_keys; [done|].
    apply Forall_forall. intros c _ this'. apply _analyzeNode_keys.
Qed.

(** C7.  When the markup parses, the analysis completes: the promise is
    fulfilled with the caller's Module Info and the instance is
    released, whatever the pool answers.  A lookup that the pool
    rejects records nothing and raises nothing: the result is that of
    the callbacks of the lookups that were answered.  The traversal does
    not wait for an answer and does not depend on one: the lookups issued
    are those of the whole tree, the same for every pool, and with every
    node that is looked up, rejected or not, each child of a library
    namespace is looked up too, and so is everything below the child. *)
Theorem rejected_lookup_is_ignored pool' xml l isFragment this h root :
  busy this = false →
  parseString xml = inr (Some root) →
  let s := start xml l isFragment this h in
  let r := _analyze xml l isFragment this h in
  let issued := lookup_key <$> promises s.1.2 in
  r.1.1 = Returned (Fulfilled l)
  ∧ busy r.1.2 = false
  ∧ (∀ p, p ∈ promises s.1.2 → was_found p = false →
       ∀ h0, settle fromUI5LegacyName s.1.2 h0 p = h0)
  ∧ r.2 = foldl (λ h p, found fromUI5LegacyName p s.1.2 h) s.2
            (filter (λ p, was_found p = true) (callbacks s.1.2))
  ∧ issued
    = lookup_key <$>
        promises (XMLTemplateAnalyzer.start pool' parseString
                    fromUI5LegacyName xml l isFragment this h).1.2
  ∧ issued
    = (if isFragment then candidates fromUI5LegacyName root
       else flat_map (candidates fromUI5LegacyName) (children root))
  ∧ (∀ p c, p ∈ promises s.1.2 → c ∈ children (node p) →
       (∀ k, k ∈ candidates fromUI5LegacyName c → k ∈ issued)
       ∧ let namespace := default "" (ns_uri c) in
         let moduleName :=
           fromUI5LegacyName ((namespace +:+ ".") +:+ ns_local c) None in
         namespace ≠ TEMPLATING_NAMESPACE →
         namespace ≠ XHTML_NAMESPACE →
         namespace ≠ SVG_NAMESPACE →
         PATTERN_LIBRARY_NAMESPACES namespace = true →
         moduleName ≠ FRAGMENTDEFINITION_MODULE →
         (moduleName, c) ∈ issued).
Proof.
  intros Hbusy Hparse s r issued.
  assert (s.1.1 = Traversed) as Hs.
  { unfold s, XMLTemplateAnalyzer.start. rewrite Hbusy, Hparse.
    by destruct isFragment. }
  assert (r = finish fromUI5LegacyName l s.1.2 s.2) as Hr.
  { unfold r, XMLTemplateAnalyzer._analyze. fold s.
    destruct s as [[[] ?] ?]; done. }
  pose proof (start_keys xml l isFragment this h root Hbusy Hparse) as Hkeys.
  fold s in Hkeys. fold issued in Hkeys.
  assert (∀ p c, p ∈ promises s.1.2 → c ∈ children (node p) →
            ∀ k, k ∈ candidates fromUI5LegacyName c → k ∈ issued) as Hdown.
  { intros p c Hp Hc k Hk.
    assert (lookup_key p ∈ issued) as Hin
      by (apply list_elem_of_fmap; eauto).
    revert Hin. rewrite Hkeys. destruct isFragment.
    - intros Hin. by apply (candidates_children root (lookup_key p) c k).
    - intros (c0 & Hc0 & Hin)%list_elem_of_In%in_flat_map.
      apply list_elem_of_In, in_flat_map. exists c0. split; [done|].
      apply list_elem_of_In.
      apply (candidates_children c0 (lookup_key p) c k); [|done..].
      by apply list_elem_of_In. }
  rewrite Hr. simpl. split_and!; try done.
  - intros p _ Hp h0. by apply settle_rejected.
  - apply settle_all_found.
  - apply start_oblivious.
  - intros p c Hp Hc. split; [by apply (Hdown p c)|].
    cbv zeta. intros Ht Hx Hsv HP Hf.
    apply (Hdown p c Hp Hc). by apply candidates_own.
Qed.

(** The lookups of an analysis are issued in document order: for a
    fragment those of the root and of everything below it, depth first,
    children from left to right; for a view the same without the root
    itself, which is never looked up.  Neither the pool's answers nor the
    conditional flag changes which lookups are made. *)
Theorem lookups_in_document_order xml l isFragment this h root :
  busy this = false →
  parseString xml = inr (Some root) →
  lookup_key <$> promises (start xml l isFragment this h).1.2
  = if isFragment then candidates fromUI5LegacyName root
    else flat_map (candidates fromUI5LegacyName) (children root).
Proof.
  intros Hbusy Hparse. unfold XMLTemplateAnalyzer.start.
  rewrite Hbusy, Hparse. destruct isFragment; cbn [fst snd].
  - by rewrite _analyzeNode_keys.
  - unfold _analyzeViewRootNode. cbn [fst snd].
    unfold XMLTemplateAnalyzer._analyzeChildren.
    rewrite children_keys; [done|].
    apply Forall_forall. intros c _ this'. apply _analyzeNode_keys.
Qed.

(** The pool is only ever asked for library nodes: every lookup of an
    analysis comes from a node whose namespace is a dotted identifier
    other than the templating, XHTML and SVG namespaces, asks for the
    module named after namespace and local name, and never asks for
    [FragmentDefinition]. *)
Theorem lookups_are_library_nodes xml l isFragment this h p :
  busy this = false →
  p ∈ promises (start xml l isFragment this h).1.2 →
  let namespace := default "" (ns_uri (node p)) in
  PATTERN_LIBRARY_NAMESPACES namespace = true
  ∧ namespace ≠ TEMPLATING_NAMESPACE
  ∧ namespace ≠ XHTML_NAMESPACE
  ∧ namespace ≠ SVG_NAMESPACE
  ∧ moduleName p
    = fromUI5LegacyName ((namespace +:+ ".") +:+ ns_local (node p)) None
  ∧ moduleName p ≠ FRAGMENTDEFINITION_MODULE.
Proof.
  intros Hbusy Hp.
  assert (lookup_key p
          ∈ lookup_key <$> promises (start xml l isFragment this h).1.2)
    as Hk by (apply list_elem_of_fmap; eauto).
  clear Hp. revert Hk. unfold XMLTemplateAnalyzer.start. rewrite Hbusy.
  destruct (parseString xml) as [err|[root|]]; cbn [fst snd promises];
    [by intros ?%elem_of_nil| |by destruct isFragment; intros ?%elem_of_nil].
  destruct isFragment; cbn [fst snd].
  - rewrite _analyzeNode_keys. cbn [promises fmap list_fmap app].
    apply (candidates_library root (lookup_key p)).
  - unfold _analyzeViewRootNode. cbn [fst snd].
    unfold XMLTemplateAnalyzer._analyzeChildren.
    rewrite children_keys
      by (apply Forall_forall; intros c _ this'; apply _analyzeNode_keys).
    cbn [promises fmap list_fmap app].
    intros (c & Hc & Hk)%list_elem_of_In%in_flat_map.
    apply (candidates_library c (lookup_key p)). by apply list_elem_of_In.
Qed.

(** *** Nodes that are passed through *)

(** A node of the XHTML or SVG namespace, a node of the templating
    namespace that is neither [if] nor [repeat], and a node whose
    namespace is not a dotted identifier (no namespace at all, a URL) are
    transparent: analysing the node is analysing its children. *)
Theorem passthrough_node n this :
  let namespace := default "" (ns_uri n) in
  namespace = XHTML_NAMESPACE ∨ namespace = SVG_NAMESPACE
  ∨ (namespace = TEMPLATING_NAMESPACE
     ∧ TEMPLATING_CONDITONAL_TAGS (ns_local n) = false)
  ∨ (namespace ≠ TEMPLATING_NAMESPACE
     ∧ PATTERN_LIBRARY_NAMESPACES namespace = false) →
  _analyzeNode n this = _analyzeChildren n this.
Proof.
  intros namespace Hns.
  assert (∀ t, conditional t = conditional this →
            mk (busy t) (info t) (conditional this) (promises t) = t) as Heta.
  { intros [] <-. done. }
  destruct n as [uri local attributes kids].
  unfold XMLTemplateAnalyzer._analyzeChildren.
  cbn [XMLTemplateAnalyzer._analyzeNode ns_uri ns_local children] in *.
  cbv zeta. fold namespace.
  set (this1 := if decide _ then _ else _).
  assert (this1 = this) as ->.
  { unfold this1. destruct Hns as [E|[E|[[E Ht]|[Hn HP]]]].
    - rewrite E. by vm_compute.
    - rewrite E. by vm_compute.
    - rewrite decide_True by done. by rewrite Ht.
    - rewrite decide_False by done. rewrite HP.
      by destruct (bool_decide _ || bool_decide _). }
  apply Heta.
  apply (_analyzeChildren_fields pool fromUI5LegacyName
           (mkNode uri local attributes kids) this).
Qed.

(** *** What an analysis writes *)

#[local] Instance only_info_refl l : Reflexive (only_info l).
Proof. intros h. exists (λ i, i). by rewrite ResolverFacts.update_info_id. Qed.

#[local] Instance only_info_trans l : Transitive (only_info l).
Proof.
  intros h1 h2 h3 [g ->] [g' ->]. exists (g' ∘ g).
  apply ResolverFacts.update_info_compose.
Qed.

Lemma only_info_addDependency m this h l :
  info this = Some l → only_info l h (_addDependency m this h).
Proof.
  intros Hl. unfold _addDependency. rewrite Hl.
  destruct (infos h !! l); [|done]. destruct (decide _); [done|].
  by eexists.
Qed.

Lemma only_info_addImplicitDependency m this h l :
  info this = Some l → only_info l h (addImplicitDependency m this h).
Proof. intros Hl. unfold addImplicitDependency. rewrite Hl. by eexists. Qed.

Lemma only_info_found p this h l :
  info this = Some l → only_info l h (found fromUI5LegacyName p this h).
Proof.
  intros Hl. unfold found.
  pose proof (λ m h, only_info_addDependency m this h l Hl) as Hadd.
  repeat (case_decide || case_match); try done;
    (etrans; [apply Hadd|]); done || apply Hadd.
Qed.

Lemma only_info_settle_all this h l :
  info this = Some l → only_info l h (settle_all fromUI5LegacyName this h).
Proof.
  intros Hl. rewrite settle_all_found. revert h.
  induction (filter _ _) as [|p ps IH]; intros h; simpl; [done|].
  etrans; [|apply IH]. by apply only_info_found.
Qed.

Lemma only_info_start xml l isFragment this h :
  only_info l h (start xml l isFragment this h).2.
Proof.
  unfold XMLTemplateAnalyzer.start. destruct (busy this); [done|].
  destruct (parseString xml) as [err|[root|]]; [done| |];
    [|by destruct isFragment; apply only_info_addImplicitDependency].
  destruct isFragment; cbn [fst snd].
  - by apply only_info_addImplicitDependency.
  - unfold _analyzeViewRootNode. cbn zeta. cbn [snd].
    destruct (getAttribute root XMLVIEW_RESBUNDLENAME_ATTRIBUTE);
      destruct (getAttribute root XMLVIEW_CONTROLLERNAME_ATTRIBUTE);
      repeat first
        [ by apply only_info_addImplicitDependency
        | etrans; [|by apply only_info_addDependency] ].
Qed.

(** An analysis writes to the Module Info it was given and to nothing
    else: the arrays of the store and every other Module Info are as
    before, whatever the markup and whatever the pool answers. *)
Theorem analysis_writes_only_its_info xml l isFragment this h :
  let r := _analyze xml l isFragment this h in
  arrays r.2 = arrays h
  ∧ length (infos r.2) = length (infos h)
  ∧ ∀ j, j ≠ l → infos r.2 !! j = infos h !! j.
Proof.
  intros r.
  assert (only_info l h r.2) as [g ->].
  { unfold r, XMLTemplateAnalyzer._analyze.
    pose proof (only_info_start xml l isFragment this h) as Hs.
    pose proof (start_traversed pool parseString fromUI5LegacyName
                  xml l isFragment this h) as Ht.
    destruct (start xml l isFragment this h) as [[[e|e|e|] this'] h'];
      cbn [fst snd] in *; try done.
    destruct (Ht this' h' eq_refl) as (_ & Hl & _).
    etrans; [exact Hs|]. by apply only_info_settle_all. }
  cbn [update_info arrays infos]. split; [done|]. split.
  - apply length_alter.
  - intros j Hj. by apply list_lookup_alter_ne.
Qed.

(** *** The busy flag *)

(** An instance that is free accepts the call: nothing is thrown.  It is
    busy from the moment the traversal has returned until the last lookup
    has settled.  When the parser reports an error the promise is rejected
    with that error and the instance is free; when the parser delivers a
    root the promise is fulfilled with the Module Info given and the
    instance is free.  When the parser delivers no root, the callback
    throws on the first access to the node: the promise is rejected and
    the instance stays busy, for no code is left to put the flag down. *)
Theorem busy_while_lookups_are_pending xml l isFragment this h :
  busy this = false →
  let s := start xml l isFragment this h in
  let r := _analyze xml l isFragment this h in
  (s.1.1 = Traversed → busy s.1.2 = true)
  ∧ match parseString xml with
    | inl e => r.1.1 = Returned (Rejected e) ∧ busy r.1.2 = false
    | inr (Some root) =>
        s.1.1 = Traversed
        ∧ r.1.1 = Returned (Fulfilled l) ∧ busy r.1.2 = false
    | inr None =>
        (∃ e, s.1.1 = ExecutorThrew e ∧ r.1.1 = Returned (Rejected e))
        ∧ busy r.1.2 = true
    end.
Proof.
  intros Hbusy s r. split.
  - intros Hs. destruct s as [[st this'] h'] eqn:E. simpl in Hs. subst st.
    by destruct (start_traversed pool parseString fromUI5LegacyName
                   xml l isFragment this h this' h' E) as (? & _).
  - unfold r, s, XMLTemplateAnalyzer._analyze, XMLTemplateAnalyzer.start.
    rewrite Hbusy. destruct (parseString xml) as [e|[root|]]; [done| |].
    + by destruct isFragment.
    + destruct isFragment; (split; [by eexists|done]).
Qed.

(** *** Attributes without a value *)

Lemma getAttribute_empty uri local attributes kids a b :
  getAttribute (mkNode uri local (<[a:=""]> attributes) kids) b
  = getAttribute (mkNode uri local (delete a attributes) kids) b.
Proof.
  unfold getAttribute. cbn [attrs]. destruct (decide (a = b)) as [->|Hne].
  - by rewrite lookup_insert_eq, lookup_delete_eq.
  - by rewrite lookup_insert_ne, lookup_delete_ne.
Qed.

(** An attribute with an empty value counts as absent: on the root of a
    view (controller name, resource bundle name) and on a control that
    refers to another entity (component name, fragment name and type, view
    name), setting an attribute to the empty string has the effect of
    removing it. *)
Theorem empty_attribute_is_absent uri local attributes kids a
    name response this h :
  _analyzeViewRootNode pool fromUI5LegacyName
    (mkNode uri local (<[a:=""]> attributes) kids) this h
  = _analyzeViewRootNode pool fromUI5LegacyName
      (mkNode uri local (delete a attributes) kids) this h
  ∧ found fromUI5LegacyName
      (mkPending name (mkNode uri local (<[a:=""]> attributes) kids) response)
      this h
    = found fromUI5LegacyName
        (mkPending name (mkNode uri local (delete a attributes) kids) response)
        this h.
Proof.
  split.
  - unfold _analyzeViewRootNode.
    by rewrite !getAttribute_empty.
  - unfold found. cbn [moduleName node].
    by rewrite !getAttribute_empty.
Qed.

(** *** References of a module to itself *)

Lemma flagOf_record_other d m c deps :
  m ≠ d →
  ModuleInfo.flagOf d (ModuleInfo.record m c deps) = ModuleInfo.flagOf d deps.
Proof.
  intros Hne. induction deps as [|[d0 c0] deps IH]; simpl.
  - by rewrite decide_False.
  - destruct (decide (d0 = m)) as [->|]; simpl.
    + by rewrite !decide_False.
    + by rewrite IH.
Qed.

Lemma self_kept_trans i1 i2 i3 :
  self_kept i1 i2 → self_kept i2 i3 → self_kept i1 i3.
Proof.
  intros [Hn Hd] [Hn' Hd']. split; [congruence|].
  rewrite Hn in Hd'. congruence.
Qed.

Lemma self_kept_addDependency m this h l i :
  info this = Some l → infos h !! l = Some i →
  ∃ i', infos (_addDependency m this h) !! l = Some i' ∧ self_kept i i'.
Proof.
  intros Hl Hi. unfold _addDependency. rewrite Hl, Hi.
  destruct (decide (ModuleInfo.name i = m)) as [|Hne]; [by exists i|].
  eexists. split; [by apply ResolverFacts.update_info_lookup|].
  unfold self_kept, ModuleInfo.addDependency,
    ModuleInfo.isConditionalDependency.
  rewrite decide_False by done. cbn [ModuleInfo.name ModuleInfo.dependencies].
  split; [done|]. by apply flagOf_record_other.
Qed.

Lemma self_kept_addImplicitDependency m this h l i :
  info this = Some l → infos h !! l = Some i →
  ∃ i', infos (addImplicitDependency m this h) !! l = Some i'
      ∧ self_kept i i'.
Proof.
  intros Hl Hi. unfold addImplicitDependency. rewrite Hl.
  eexists. split; [by apply ResolverFacts.update_info_lookup|].
  unfold self_kept, ModuleInfo.addImplicitDependency.
  by repeat destruct (decide _).
Qed.

Lemma self_kept_found p this h l i :
  info this = Some l → infos h !! l = Some i →
  ∃ i', infos (found fromUI5LegacyName p this h) !! l = Some i'
      ∧ self_kept i i'.
Proof.
  intros Hl Hi. unfold found.
  destruct (self_kept_addDependency (moduleName p) this h l i Hl Hi)
    as (i1 & Hi1 & H1).
  assert (∀ m, ∃ i', infos (_addDependency m this
                              (_addDependency (moduleName p) this h)) !! l
                     = Some i' ∧ self_kept i i') as Hsecond.
  { intros m.
    destruct (self_kept_addDependency m this _ l i1 Hl Hi1) as (i2 & ? & ?).
    exists i2. split; [done|]. by eapply self_kept_trans. }
  repeat (case_decide || case_match); first [apply Hsecond | by exists i1].
Qed.

Lemma self_kept_settle_all this h l i :
  info this = Some l → infos h !! l = Some i →
  ∃ i', infos (settle_all fromUI5LegacyName this h) !! l = Some i'
      ∧ self_kept i i'.
Proof.
  intros Hl. rewrite settle_all_found. revert h i.
  induction (filter _ _) as [|p ps IH]; intros h i Hi; simpl.
  - by exists i.
  - destruct (self_kept_found p this h l i Hl Hi) as (i1 & Hi1 & H1).
    destruct (IH _ i1 Hi1) as (i2 & Hi2 & H2).
    exists i2. split; [done|]. by eapply self_kept_trans.
Qed.

Lemma self_kept_start xml l isFragment this h i :
  infos h !! l = Some i →
  ∃ i', infos (start xml l isFragment this h).2 !! l = Some i'
      ∧ self_kept i i'.
Proof.
  intros Hi. unfold XMLTemplateAnalyzer.start.
  destruct (busy this); [by exists i|].
  destruct (parseString xml) as [err|[root|]]; [by exists i| |];
    [|by destruct isFragment; apply self_kept_addImplicitDependency].
  set (this0 := mk true (Some l) false []).
  destruct isFragment; cbn [fst snd].
  - by apply self_kept_addImplicitDependency.
  - unfold _analyzeViewRootNode. cbn zeta. cbn [snd].
    destruct (self_kept_addImplicitDependency XMLVIEW_MODULE this0 h l i
                eq_refl Hi) as (i1 & Hi1 & H1).
    destruct (getAttribute root XMLVIEW_CONTROLLERNAME_ATTRIBUTE) as [c|].
    + destruct (self_kept_addDependency
                  (fromUI5LegacyName c (Some ".controller.js")) this0 _ l i1
                  eq_refl Hi1) as (i2 & Hi2 & H2).
      destruct (getAttribute root XMLVIEW_RESBUNDLENAME_ATTRIBUTE) as [b|].
      * destruct (self_kept_addDependency
                    (fromUI5LegacyName b (Some ".properties")) this0 _ l i2
                    eq_refl Hi2) as (i3 & Hi3 & H3).
        exists i3. split; [done|].
        eapply self_kept_trans; [|exact H3]. by eapply self_kept_trans.
      * exists i2. split; [done|]. by eapply self_kept_trans.
    + destruct (getAttribute root XMLVIEW_RESBUNDLENAME_ATTRIBUTE) as [b|].
      * destruct (self_kept_addDependency
                    (fromUI5LegacyName b (Some ".properties")) this0 _ l i1
                    eq_refl Hi1) as (i3 & Hi3 & H3).
        exists i3. split; [done|]. by eapply self_kept_trans.
      * by exists i1.
Qed.

(** An analysis never makes a module depend on itself: whatever the
    markup refers to (a control, a controller, a fragment or view named
    by an attribute) and whatever the pool answers, the module's own name
    is recorded as a dependency afterwards exactly as it was before, and
    the name of the Module Info is unchanged. *)
Theorem analysis_adds_no_self_reference xml l isFragment this h i :
  infos h !! l = Some i →
  ∃ i', infos (_analyze xml l isFragment this h).2 !! l = Some i'
      ∧ ModuleInfo.name i' = ModuleInfo.name i
      ∧ ModuleInfo.isConditionalDependency (ModuleInfo.name i) i'
        = ModuleInfo.isConditionalDependency (ModuleInfo.name i) i.
Proof.
  intros Hi. unfold XMLTemplateAnalyzer._analyze.
  destruct (self_kept_start xml l isFragment this h i Hi) as (i1 & Hi1 & H1).
  pose proof (start_traversed pool parseString fromUI5LegacyName
                xml l isFragment this h) as Ht.
  destruct (start xml l isFragment this h) as [[[e|e|e|] this'] h'];
    cbn [fst snd] in *; try by exists i1.
  destruct (Ht this' h' eq_refl) as (_ & Hl & _).
  destruct (self_kept_settle_all this' h' l i1 Hl Hi1) as (i2 & Hi2 & H2).
  exists i2. split; [done|]. by eapply self_kept_trans.
Qed.

End Collaborators.

(** *** Runs on concrete trees *)

(** [Sample.page] against a pool without [sap/m/content.js]: the Page
    and the Button below [content] are recorded, [content] is not. *)
Lemma rejected_lookup_is_ignored_witness :
  let r := XMLTemplateAnalyzer._analyze Sample.page_pool Sample.parseString
             ModuleName.fromUI5LegacyName "page" 0 true create
             Sample.fragment_heap in
  r.1.1 = Returned (Fulfilled 0)
  ∧ ModuleInfo.dependencies <$> infos r.2 !! 0
    = Some [("sap/m/Page.js", false); ("sap/m/Button.js", false)].
Proof.
  destruct (rejected_lookup_is_ignored Sample.page_pool Sample.parseString
              ModuleName.fromUI5LegacyName Sample.prompt_pool "page" 0 true
              create Sample.fragment_heap Sample.page eq_refl eq_refl)
    as (Hr & _ & _ & Hh & _).
  split; [exact Hr|]. rewrite Hh. reflexivity.
Defined.

Lemma lookups_in_document_order_witness :
  lookup_key <$>
    promises (XMLTemplateAnalyzer.start Sample.page_pool Sample.parseString
                ModuleName.fromUI5LegacyName "page" 0 true create
                Sample.fragment_heap).1.2
  = candidates ModuleName.fromUI5LegacyName Sample.page.
Proof.
  exact (lookups_in_document_order Sample.page_pool Sample.parseString
           ModuleName.fromUI5LegacyName "page" 0 true create
           Sample.fragment_heap Sample.page eq_refl eq_refl).
Defined.

Lemma lookups_are_library_nodes_witness :
  PATTERN_LIBRARY_NAMESPACES "sap.m" = true
  ∧ "sap.m" ≠ TEMPLATING_NAMESPACE
  ∧ "sap.m" ≠ XHTML_NAMESPACE
  ∧ "sap.m" ≠ SVG_NAMESPACE
  ∧ "sap/m/Page.js"
    = ModuleName.fromUI5LegacyName (("sap.m" +:+ ".") +:+ "Page") None
  ∧ "sap/m/Page.js" ≠ FRAGMENTDEFINITION_MODULE.
Proof.
  apply (lookups_are_library_nodes Sample.prompt_pool Sample.parseString
           ModuleName.fromUI5LegacyName "page" 0 true create
           Sample.fragment_heap
           (mkPending "sap/m/Page.js" Sample.page
              (mkResponse 0 (Fulfilled ())))).
  - reflexivity.
  - vm_compute. left.
Defined.

(** A [div] of the XHTML namespace around a Button. *)
Lemma passthrough_node_witness :
  XMLTemplateAnalyzer._analyzeNode Sample.prompt_pool
    ModuleName.fromUI5LegacyName
    (Sample.element XHTML_NAMESPACE "div" [Sample.button]) create
  = XMLTemplateAnalyzer._analyzeChildren Sample.prompt_pool
      ModuleName.fromUI5LegacyName
      (Sample.element XHTML_NAMESPACE "div" [Sample.button]) create.
Proof.
  apply (passthrough_node Sample.prompt_pool ModuleName.fromUI5LegacyName).
  left. reflexivity.
Defined.

(** The empty document, for which the parser delivers no root. *)
Lemma busy_while_lookups_are_pending_witness :
  busy (XMLTemplateAnalyzer._analyze Sample.page_pool Sample.parseString
          ModuleName.fromUI5LegacyName "" 0 true create
          Sample.fragment_heap).1.2 = true.
Proof.
  pose proof (busy_while_lookups_are_pending Sample.page_pool
                Sample.parseString ModuleName.fromUI5LegacyName "" 0 true
                create Sample.fragment_heap eq_refl) as H.
  cbv zeta in H. destruct H as [_ H].
  change (Sample.parseString "") with (@inr JsError (option Node) None) in H.
  exact (proj2 H).
Defined.

(** The fragment with a Button, analysed for the Button module itself. *)
Lemma analysis_adds_no_self_reference_witness :
  ∃ i',
    infos (XMLTemplateAnalyzer._analyze Sample.prompt_pool Sample.parseString
             ModuleName.fromUI5LegacyName "conditional_button" 0 true create
             (mkHeap [] [ModuleInfo.create "sap/m/Button.js"])).2 !! 0
    = Some i'
    ∧ ModuleInfo.name i' = "sap/m/Button.js"
    ∧ ModuleInfo.isConditionalDependency "sap/m/Button.js" i' = None.
Proof.
  apply (analysis_adds_no_self_reference Sample.prompt_pool
           Sample.parseString ModuleName.fromUI5LegacyName
           "conditional_button" 0 true create
           (mkHeap [] [ModuleInfo.create "sap/m/Button.js"])
           (ModuleInfo.create "sap/m/Button.js")).
  reflexivity.
Defined.

Lemma analysis_records_unconditionally_witness :
  quiet 0 Sample.fragment_heap
    (XMLTemplateAnalyzer._analyze Sample.prompt_pool Sample.parseString
       ModuleName.fromUI5LegacyName "both_buttons" 0 true create
       Sample.fragment_heap).2.
Proof.
  apply (analysis_records_unconditionally Sample.prompt_pool
           Sample.parseString ModuleName.fromUI5LegacyName).
Defined.

End AnalyzerLaws.

(** ** More on bundle resolution *)

Module ResolverLaws.
Import ResolvedBundleDefinition ResolverFacts.

(** *** The trace of a fetching section *)

Lemma fetch_mode section :
  mode section = Raw ∨ mode section = Preload →
  mode section ≠ Provided ∧ mode section ≠ Require_.
Proof. by intros [-> | ->]. Qed.

(** A Raw or Preload section first issues all its lookups, in the order
    of its module list (as declared for Raw; sorted ascending, whatever
    the declared order, for Preload), and only then do the lookups settle,
    each exactly once. *)
Theorem lookups_before_settlements pool bundleInfo section run :
  mode section = Raw ∨ mode section = Preload →
  let declared := array_get (heap run) (modules section) in
  let names := fetched_names (heap run) section in
  (∃ items,
     log (section_step pool bundleInfo section run).2
     = log run ++ (Requested <$> names) ++ (event_of <$> items)
     ∧ items.*1 ≡ₚ names)
  ∧ names ≡ₚ declared
  ∧ (mode section = Raw → names = declared)
  ∧ (mode section = Preload → Sorted String.le names).
Proof.
  intros Hmode declared names.
  destruct (fetch_mode section Hmode) as [HP HR].
  split; [|split; [|split]].
  - rewrite (section_step_fetch _ _ _ _ HP HR). cbn zeta. cbn [snd].
    pose proof (prepared_names bundleInfo section (heap run)) as Hn.
    cbn zeta in Hn. fold (fetched_names (heap run) section) in Hn.
    fold names in Hn. rewrite Hn.
    exists (settle_order (request pool names (log run)).1). split.
    + match goal with |- context [foldl ?f ?st ?items] =>
        destruct (settle_frame bundleInfo items st) as [_ Hl] end.
      rewrite Hl. cbn [fst log]. by rewrite request_log, <- app_assoc.
    + rewrite settle_order_perm. by rewrite request_names.
  - unfold names, fetched_names. destruct (decide _); [|done].
    apply merge_sort_Permutation.
  - intros Hraw. unfold names, fetched_names.
    rewrite decide_False; [done|]. by rewrite Hraw.
  - intros Hpre. unfold names, fetched_names.
    rewrite decide_True by done. apply Sorted_merge_sort, _.
Qed.

(** *** The submodules of a fetching section *)

Lemma answers_Forall2 pool names
    (items : list (string * Settled ModuleInfo.t)) subs :
  Forall2 (λ m p, p.1 = m ∧ ∃ k, p.2 = outcome (getModuleInfo pool k m))
    names items →
  Forall2 (λ p subinfo, p.2 = Fulfilled subinfo) items subs →
  Forall2 (λ m subinfo,
             ∃ k, outcome (getModuleInfo pool k m) = Fulfilled subinfo)
    names subs.
Proof.
  intros Hreq. revert subs.
  induction Hreq as [|m p names items [_ [k Hk]] _ IH]; intros subs Hf;
    inversion Hf; subst; constructor; [|by apply IH].
  exists k. congruence.
Qed.

(** When the step of a Raw or Preload section is fulfilled, the bundle
    info has gained exactly the Module Infos that the pool answered for
    the listed modules, one for each, none lost and none twice; only their
    order is that of settlement. *)
Theorem submodules_are_the_fetched_infos pool bundleInfo section run i u :
  mode section = Raw ∨ mode section = Preload →
  infos (heap run) !! bundleInfo = Some i →
  (section_step pool bundleInfo section run).1 = Fulfilled u →
  ∃ i' subs answered,
    infos (heap (section_step pool bundleInfo section run).2) !! bundleInfo
    = Some i'
    ∧ ModuleInfo.subModules i' = ModuleInfo.subModules i ++ subs
    ∧ subs ≡ₚ answered
    ∧ Forall2 (λ m subinfo,
                 ∃ k, outcome (getModuleInfo pool k m) = Fulfilled subinfo)
        (fetched_names (heap run) section) answered.
Proof.
  intros Hmode Hi Hu. destruct (fetch_mode section Hmode) as [HP HR].
  destruct (section_step_info pool bundleInfo section run i Hi)
    as (i' & Hi' & _ & Hsub).
  rewrite decide_False in Hsub by tauto.
  set (names := fetched_names (heap run) section) in *.
  set (batch := (request pool names (log run)).1) in *.
  exists i', (fulfilled (settle_order batch)), (fulfilled batch.*2).
  split; [done|]. split; [done|]. split.
  { unfold fulfilled. by rewrite settle_order_perm. }
  rewrite (section_step_fetch _ _ _ _ HP HR) in Hu. cbn zeta in Hu.
  pose proof (prepared_names bundleInfo section (heap run)) as Hn.
  cbn zeta in Hn. fold (fetched_names (heap run) section) in Hn.
  fold names in Hn. rewrite Hn in Hu. fold batch in Hu. cbn [fst] in Hu.
  match type of Hu with context [foldl ?f (?r, None) ?items] =>
    pose proof (settle_failure bundleInfo items r) as Hfail;
    destruct (foldl f (r, None) items).2 as [e|]; [done|] end.
  eapply answers_Forall2; [apply request_Forall2|].
  apply fulfilled_Forall2. intros p Hp. apply Hfail.
  exact (proj2 (settle_order_elem _ _) Hp).
Qed.

(** *** Bundles that fetch nothing *)

Lemma section_step_without_fetch bundleInfo section run :
  mode section = Provided ∨ mode section = Require_ →
  ∃ h', ∀ pool,
    section_step pool bundleInfo section run
    = (Fulfilled (), mkRun h' (log run)).
Proof.
  destruct run as [h lg]. intros [Hs|Hs]; eexists; intros pool;
    unfold section_step.
  - by rewrite (decide_True _ _ Hs).
  - destruct (decide (mode section = Provided)) as [E|_]; [congruence|].
    by rewrite (decide_True _ _ Hs).
Qed.

Lemma chain_without_fetch pool pool' bundleInfo sections run :
  Forall (λ section, mode section = Provided ∨ mode section = Require_)
    sections →
  chain pool bundleInfo sections run = chain pool' bundleInfo sections run
  ∧ (chain pool bundleInfo sections run).1 = Fulfilled ()
  ∧ log (chain pool bundleInfo sections run).2 = log run.
Proof.
  intros Hall. revert run.
  induction Hall as [|section rest Hs _ IH]; intros run; [done|].
  cbn [chain].
  destruct (section_step_without_fetch bundleInfo section run Hs) as [h' Hh].
  rewrite !Hh. apply (IH (mkRun h' (log run))).
Qed.

(** A bundle definition with Provided and Require sections only is
    resolved without a single call of the pool: the result is the same for
    every pool, the promise is always fulfilled, and the trace does not
    grow. *)
Theorem no_fetching_section_no_lookup pool pool' this run :
  Forall (λ section, mode section = Provided ∨ mode section = Require_)
    (sections this) →
  createModuleInfo pool this run = createModuleInfo pool' this run
  ∧ (createModuleInfo pool this run).1
    = Fulfilled (length (infos (heap run)))
  ∧ log (createModuleInfo pool this run).2 = log run.
Proof.
  intros Hall. rewrite !createModuleInfo_chain. cbn zeta.
  match goal with |- context [chain pool ?b ?ss ?r] =>
    destruct (chain_without_fetch pool pool' b ss r Hall) as (<- & Hf & Hl)
  end.
  split; [done|]. cbn [fst snd]. by rewrite Hf, Hl.
Qed.

(** *** After a rejection *)

(** Once the step of a section has been rejected the sections declared
    after it are not processed: whatever follows, the result, the store
    and the trace are those of the definition that ends with the failing
    section. *)
Theorem rejection_skips_later_sections pool name pre post run e :
  (createModuleInfo pool (mk name pre) run).1 = Rejected e →
  createModuleInfo pool (mk name (pre ++ post)) run
  = createModuleInfo pool (mk name pre) run.
Proof.
  rewrite !createModuleInfo_chain. cbn zeta. cbn [sections fst snd].
  rewrite chain_app. intros Hrej.
  by destruct (chain pool _ pre _) as [[[]|e'] run'].
Qed.

(** *** Queries after a resolution *)

Lemma existsb_agree {A} (f g : A → bool) (l : list A) :
  (∀ x, x ∈ l → f x = g x) → existsb f l = existsb g l.
Proof.
  induction l as [|x l IH]; intros H; simpl; [done|].
  rewrite (H x) by left. rewrite IH; [done|].
  intros y Hy. apply H. by right.
Qed.

Lemma createModuleInfo_array_get pool this run section :
  allocated (heap run) this → section ∈ sections this →
  array_get (heap (createModuleInfo pool this run).2) (modules section)
  = array_get (heap run) (modules section).
Proof.
  intros Hwf Hin. rewrite createModuleInfo_chain. cbn zeta. cbn [snd].
  match goal with |- context [chain ?p ?b ?ss ?r] =>
    destruct (chain_frame p b ss r) as [Hf _] end.
  unfold allocated in Hwf. rewrite Forall_forall in Hwf.
  exact (frame_array_get _ _ _ _ Hf (Hwf section Hin)).
Qed.

(** Resolving a bundle definition does not change what its derived
    queries answer: [containsCore], [containsGlobal] and [executes] give
    the same on the store after [createModuleInfo] as before, also when a
    Preload section was sorted and also when the resolution failed. *)
Theorem queries_survive_resolution core global pool this run moduleName :
  allocated (heap run) this →
  let h' := heap (createModuleInfo pool this run).2 in
  containsCore core h' this = containsCore core (heap run) this
  ∧ containsGlobal global h' this = containsGlobal global (heap run) this
  ∧ executes h' this moduleName = executes (heap run) this moduleName.
Proof.
  intros Hwf h'. unfold containsCore, containsGlobal, executes, h'.
  split_and!; apply existsb_agree; intros section Hin;
    by rewrite (createModuleInfo_array_get pool this run section Hwf Hin).
Qed.

(** *** The declared order of a Preload section *)

(** Two module lists with the same modules are the same once sorted. *)
Lemma merge_sort_perm (l l' : list string) :
  l ≡ₚ l' → merge_sort String.le l = merge_sort String.le l'.
Proof.
  intros Hperm.
  apply (Sorted_unique String.le); [apply Sorted_merge_sort, _..|].
  by rewrite !merge_sort_Permutation.
Qed.

Lemma section_step_preload_perm pool bundleInfo section section' run :
  mode section = Preload → mode section' = Preload →
  array_get (heap run) (modules section)
    ≡ₚ array_get (heap run) (modules section') →
  section_step pool bundleInfo section run
  = section_step pool bundleInfo section' run.
Proof.
  intros Hm Hm' Hperm.
  rewrite !section_step_fetch by (rewrite ?Hm, ?Hm'; done). cbn zeta.
  assert (prepared bundleInfo section (heap run)
          = prepared bundleInfo section' (heap run)) as ->; [|done].
  unfold prepared. rewrite Hm, Hm'. simpl. unfold sort, slice. simpl.
  rewrite !alter_app_r_alt by done. rewrite Nat.sub_diag. simpl.
  by rewrite (merge_sort_perm _ _ Hperm).
Qed.

Lemma chain_preload_perm pool bundleInfo sections sections' run :
  Forall2 (λ s s',
             modules s < length (arrays (heap run))
             ∧ modules s' < length (arrays (heap run))
             ∧ (s = s'
                ∨ mode s = Preload ∧ mode s' = Preload
                  ∧ array_get (heap run) (modules s)
                      ≡ₚ array_get (heap run) (modules s')))
    sections sections' →
  chain pool bundleInfo sections run = chain pool bundleInfo sections' run.
Proof.
  intros Hall. revert run Hall.
  induction sections as [|s rest IH] in sections' |- *; intros run Hall.
  { by apply Forall2_nil_inv_l in Hall as ->. }
  apply Forall2_cons_inv_l in Hall
    as (s' & rest' & (Hs & Hs' & Hrel) & Hall & ->).
  cbn [chain].
  assert (section_step pool bundleInfo s run
          = section_step pool bundleInfo s' run) as <-.
  { destruct Hrel as [<-|(Hm & Hm' & Hperm)]; [done|].
    by apply section_step_preload_perm. }
  destruct (section_step_frame pool bundleInfo s run) as [Hf _].
  destruct (section_step pool bundleInfo s run) as [[[]|e] run1]; [|done].
  cbn [snd] in Hf. apply IH.
  eapply Forall2_impl; [exact Hall|].
  intros x y (Hx & Hy & Hxy).
  pose proof (frame_arrays_length _ _ _ Hf).
  split; [lia|]. split; [lia|].
  by rewrite !(frame_array_get _ _ _ _ Hf).
Qed.

(** The order in which the modules of a Preload section are declared
    has no effect on what [createModuleInfo] does: two bundle definitions
    of the same name whose sections agree, except that Preload sections
    may list their modules in another order, are resolved alike from the
    same store against the same pool, whatever the pool answers and
    whenever: same outcome, same store, sorted copies included, and the
    same lookups and callbacks in the same order. *)
Theorem preload_order_is_irrelevant pool name sections sections' run :
  allocated (heap run) (mk name sections) →
  allocated (heap run) (mk name sections') →
  Forall2 (λ s s',
             s = s'
             ∨ mode s = Preload ∧ mode s' = Preload
               ∧ array_get (heap run) (modules s)
                   ≡ₚ array_get (heap run) (modules s'))
    sections sections' →
  createModuleInfo pool (mk name sections) run
  = createModuleInfo pool (mk name sections') run.
Proof.
  intros Hwf Hwf' Hall. rewrite !createModuleInfo_chain. cbn zeta.
  cbn [ResolvedBundleDefinition.sections ResolvedBundleDefinition.name].
  rewrite (chain_preload_perm pool _ sections sections'); [done|].
  unfold allocated in Hwf, Hwf'. cbn [ResolvedBundleDefinition.sections] in *.
  cbn [heap arrays]. clear -Hwf Hwf' Hall.
  induction Hall as [|s s' rest rest' Hrel _ IH]; [constructor|].
  apply Forall_cons in Hwf as [Hs Hwf], Hwf' as [Hs' Hwf'].
  constructor; [|by apply IH]. done.
Qed.

(** *** Runs on concrete bundles *)

Lemma rawModule_iff_witness :
  ∃ i,
    infos (heap (createModuleInfo Sample.prompt_pool Sample.raw_bundle
                   Sample.fresh_run).2) !! 0 = Some i
    ∧ (ModuleInfo.rawModule i = true ↔
         ∃ section, section ∈ sections Sample.raw_bundle
           ∧ mode section = Raw
           ∧ array_get (heap Sample.fresh_run) (modules section) ≠ []).
Proof.
  apply (rawModule_iff Sample.prompt_pool Sample.raw_bundle
           Sample.fresh_run 0).
  - apply Forall_cons_2; [simpl; lia|constructor].
  - reflexivity.
Defined.

Lemma fetch_in_request_order_witness :
  let run := mkRun (new_ModuleInfo "bundle.js" Sample.bundle_heap).2 [] in
  ∃ i' subs,
    infos (heap (section_step Sample.prompt_pool 0 (mkSection Preload 0)
                   run).2) !! 0 = Some i'
    ∧ ModuleInfo.subModules i'
      = ModuleInfo.subModules (ModuleInfo.create "bundle.js") ++ subs
    ∧ Forall2 (λ m subinfo,
                 ∃ k, outcome (getModuleInfo Sample.prompt_pool k m)
                      = Fulfilled subinfo)
        (fetched_names (heap run) (mkSection Preload 0)) subs.
Proof.
  intros run.
  apply (fetch_in_request_order Sample.prompt_pool 0 (mkSection Preload 0)
           run (ModuleInfo.create "bundle.js") ()).
  - intros k k' m m' _. simpl. lia.
  - right. reflexivity.
  - reflexivity.
  - reflexivity.
Defined.

(** The same modules declared as [b.js, a.js] and as [a.js, b.js],
    against a pool with a cold cache. *)
Lemma preload_order_is_irrelevant_witness :
  createModuleInfo Sample.cold_pool
    (mk "bundle.js" [mkSection Preload 0]) Sample.fresh_run
  = createModuleInfo Sample.cold_pool
      (mk "bundle.js" [mkSection Preload 2]) Sample.fresh_run.
Proof.
  apply (preload_order_is_irrelevant Sample.cold_pool "bundle.js"
           [mkSection Preload 0] [mkSection Preload 2] Sample.fresh_run).
  - repeat (apply Forall_cons_2; [simpl; lia|]). constructor.
  - repeat (apply Forall_cons_2; [simpl; lia|]). constructor.
  - constructor; [|constructor]. right.
    split; [reflexivity|]. split; [reflexivity|]. apply Permutation_swap.
Defined.

Lemma lookups_before_settlements_witness :
  Sorted String.le
    (fetched_names (heap Sample.fresh_run) (mkSection Preload 0)).
Proof.
  destruct (lookups_before_settlements Sample.cold_pool 0
              (mkSection Preload 0) Sample.fresh_run)
    as (_ & _ & _ & Hsorted).
  - right. reflexivity.
  - apply Hsorted. reflexivity.
Defined.

Lemma submodules_are_the_fetched_infos_witness :
  let run := mkRun (new_ModuleInfo "bundle.js" Sample.bundle_heap).2 [] in
  ∃ i' subs answered,
    infos (heap (section_step Sample.cold_pool 0 (mkSection Raw 1) run).2)
      !! 0 = Some i'
    ∧ ModuleInfo.subModules i'
      = ModuleInfo.subModules (ModuleInfo.create "bundle.js") ++ subs
    ∧ subs ≡ₚ answered
    ∧ Forall2 (λ m subinfo,
                 ∃ k, outcome (getModuleInfo Sample.cold_pool k m)
                      = Fulfilled subinfo)
        (fetched_names (heap run) (mkSection Raw 1)) answered.
Proof.
  intros run.
  apply (submodules_are_the_fetched_infos Sample.cold_pool 0
           (mkSection Raw 1) run (ModuleInfo.create "bundle.js") ()).
  - left. reflexivity.
  - reflexivity.
  - reflexivity.
Defined.

Lemma no_fetching_section_no_lookup_witness :
  let this := mk "bundle.js" [mkSection Provided 0; mkSection Require_ 1] in
  createModuleInfo Sample.empty_pool this Sample.fresh_run
  = createModuleInfo Sample.prompt_pool this Sample.fresh_run
  ∧ (createModuleInfo Sample.empty_pool this Sample.fresh_run).1
    = Fulfilled 0
  ∧ log (createModuleInfo Sample.empty_pool this Sample.fresh_run).2 = [].
Proof.
  intros this.
  apply (no_fetching_section_no_lookup Sample.empty_pool Sample.prompt_pool
           this Sample.fresh_run).
  apply Forall_cons_2; [left; reflexivity|].
  apply Forall_cons_2; [right; reflexivity|constructor].
Defined.

Lemma rejection_skips_later_sections_witness :
  createModuleInfo Sample.partial_pool Sample.broken_bundle Sample.fresh_run
  = createModuleInfo Sample.partial_pool
      (mk "bundle.js" [mkSection Require_ 1; mkSection Preload 4])
      Sample.fresh_run.
Proof.
  apply (rejection_skips_later_sections Sample.partial_pool "bundle.js"
           [mkSection Require_ 1; mkSection Preload 4] [mkSection Raw 1]
           Sample.fresh_run (Error "resource not found: missing.js")).
  reflexivity.
Defined.

Lemma queries_survive_resolution_witness :
  executes
    (heap (createModuleInfo Sample.prompt_pool Sample.mixed_bundle
             Sample.fresh_run).2) Sample.mixed_bundle "x.js"
  = executes (heap Sample.fresh_run) Sample.mixed_bundle "x.js".
Proof.
  destruct (queries_survive_resolution "sap/ui/core/Core.js"
              "jquery.sap.global.js" Sample.prompt_pool Sample.mixed_bundle
              Sample.fresh_run "x.js") as (_ & _ & Hexec).
  - repeat (apply Forall_cons_2; [simpl; lia|]). constructor.
  - exact Hexec.
Defined.

End ResolverLaws.
